(** * MissionControl, docs/archive/agents/v3_subagent.py

    A shallow embedding of the agent with subagent spawning: the tool
    handlers ([execute_basic], [execute]), the delegated loop
    ([run_subagent]) and the primary loop ([agent]), followed by the
    properties of the orchestrator that the specification states.

    Conventions of the embedding.
    - A Python [str] is the list of its code points ([pystr]); [py]
      turns a literal into one.
    - The process state (the file system, the module-level lists [todos]
      and [subagents], and the exchanges made with the reasoning service)
      is one record, [world], threaded through a state-and-exception
      monad [M]: a Python exception that leaves a function is the
      outcome [Raise].
    - What the program calls and does not define is the class [Env]: the
      reasoning service, the shell, the three accesses to the file
      system ([open] for reading, [os.makedirs], [open] for writing) and
      the text of an exception. The definitions and the theorems assume
      nothing of them: a file operation may return or raise whatever the
      operating system makes it. A call of the service that fails is
      outside the model, and so is an exception that is no subclass of
      [Exception].
    - Console output ([print]) does not reach the conversation or the
      state; the texts printed are given as functions at the end. *)

From stdpp Require Import base gmap sets list strings pretty.
From Stdlib Require Import ZArith Lia.

Open Scope Z_scope.

(** * Python strings *)

Definition pystr : Type := list N.

Definition py (s : string) : pystr :=
  (fun a => Ascii.N_of_ascii a) <$> String.list_ascii_of_string s.

Arguments py : simpl never.

(** [str(n)] for an integer, as an f-string interpolates it. *)
Definition str_int (z : Z) : pystr := py (pretty z).
Arguments str_int : simpl never.

(** [len(s)] *)
Definition len {A} (l : list A) : Z := Z.of_nat (length l).

(** ["\n"] *)
Definition newline : pystr := [10%N].

(** [sep.join(parts)] *)
Fixpoint str_join (sep : pystr) (parts : list pystr) : pystr :=
  match parts with
  | [] => []
  | [p] => p
  | p :: rest => p ++ sep ++ str_join sep rest
  end.

(** The number of bytes of the UTF-8 encoding of a string of Unicode scalar
    values: what a text-mode [f.write] puts in the file under the UTF-8
    encoding. *)
Definition utf8_width (c : N) : nat :=
  if (c <? 128)%N then 1%nat
  else if (c <? 2048)%N then 2%nat
  else if (c <? 65536)%N then 3%nat
  else 4%nat.

Definition utf8_length (s : pystr) : nat :=
  foldr (fun c n => (utf8_width c + n)%nat) 0%nat s.

Section Substring.
Context {A : Type} `{EqDecision A}.

(** [s.startswith(sub)] *)
Fixpoint startswith (sub s : list A) : bool :=
  match sub, s with
  | [], _ => true
  | _ :: _, [] => false
  | a :: sub', c :: s' => bool_decide (a = c) && startswith sub' s'
  end.

(** [sub in s] *)
Fixpoint str_contains (sub s : list A) : bool :=
  startswith sub s
  || match s with
     | [] => false
     | _ :: s' => str_contains sub s'
     end.

(** [s.count(sub)] for a non-empty [sub]: the occurrences are counted
    from the left and do not overlap, the scan resuming after each
    match. [fuel] bounds the number of scan steps. *)
Fixpoint count_from (fuel : nat) (sub s : list A) : nat :=
  match fuel with
  | O => 0
  | S fuel' =>
      if startswith sub s
      then S (count_from fuel' sub (drop (length sub) s))
      else match s with
           | [] => 0
           | _ :: s' => count_from fuel' sub s'
           end
  end%nat.

(** [s.count(sub)]; the empty string is counted [len(s) + 1] times. *)
Definition str_count (sub s : list A) : nat :=
  match sub with
  | [] => S (length s)
  | _ :: _ => count_from (length s) sub s
  end.

Fixpoint replace_from (fuel : nat) (old new s : list A) : list A :=
  match fuel with
  | O => s
  | S fuel' =>
      if startswith old s
      then new ++ replace_from fuel' old new (drop (length old) s)
      else match s with
           | [] => []
           | c :: s' => c :: replace_from fuel' old new s'
           end
  end.

(** [s.replace(old, new)]: every (non-overlapping) occurrence is replaced;
    an empty [old] matches before every character and at the end. *)
Definition str_replace (old new s : list A) : list A :=
  match old with
  | [] => new ++ flat_map (fun c => c :: new) s
  | _ :: _ => replace_from (length s) old new s
  end.

(** [s.lstrip(c)] and [s.rstrip(c)] for a one-character set. *)
Fixpoint lstrip (c : A) (s : list A) : list A :=
  match s with
  | [] => []
  | x :: s' => if bool_decide (x = c) then lstrip c s' else s
  end.

Definition rstrip (c : A) (s : list A) : list A :=
  reverse (lstrip c (reverse s)).

(** [s.rfind(c) + 1]: the position after the last [c], 0 without one. *)
Fixpoint after_last (c : A) (s : list A) : nat :=
  match s with
  | [] => 0
  | x :: s' =>
      match after_last c s' with
      | O => if bool_decide (x = c) then 1 else 0
      | S n => S (S n)
      end
  end%nat.
End Substring.

(** * Paths ([posixpath]) *)

Definition sep : N := 47%N.

(** [posixpath.split(p)] *)
Definition path_split (p : pystr) : pystr * pystr :=
  let i := after_last sep p in
  let head := take i p in
  let tail := drop i p in
  let head :=
    if bool_decide (head ≠ []) && negb (forallb (fun c => bool_decide (c = sep)) head)
    then rstrip sep head else head in
  (head, tail).

(** [os.path.dirname(p)] *)
Definition dirname (p : pystr) : pystr := fst (path_split p).

(** [x or y] on strings *)
Definition str_or (x y : pystr) : pystr :=
  match x with [] => y | _ :: _ => x end.

(** * Conversation data *)

(** The input of a tool call: the JSON object sent by the service, read as
    the dict [block.input]. Each key the handlers read is a field holding
    the value under that key, of the type the tool schemas declare for it,
    or [None] when the key is absent, where [tool_input["key"]] raises
    [KeyError]. *)
Record tool_input := ToolInput {
  in_command : option pystr;
  in_path : option pystr;
  in_content : option pystr;
  in_old_string : option pystr;
  in_new_string : option pystr;
  in_task : option pystr;
  in_index : option Z;
  in_status : option pystr;
  in_description : option pystr;
}.

Definition no_input : tool_input :=
  ToolInput None None None None None None None None None.

(** A content block of a response: free text ([block.type == "text"], the
    only kind with a [text] attribute) or a tool invocation
    ([block.type == "tool_use"]). *)
Inductive block :=
  | TextBlock (text : pystr)
  | ToolUseBlock (id name : pystr) (input : tool_input).

(** [hasattr(block, "text")] *)
Definition hasattr_text (b : block) : bool :=
  match b with
  | TextBlock _ => true
  | ToolUseBlock _ _ _ => false
  end.

Record response := Response {
  content : list block;
  stop_reason : pystr;
}.

(** [{"type": "tool_result", "tool_use_id": ..., "content": ...}] *)
Record tool_result := ToolResult {
  tool_use_id : pystr;
  result_content : pystr;
}.

Inductive message_content :=
  | Text (s : pystr)
  | Blocks (bs : list block)
  | ToolResults (rs : list tool_result).

Record message := Message {
  role : pystr;
  msg_content : message_content;
}.

(** [{"role": "user", "content": text}],
    [{"role": "assistant", "content": assistant_content}] and
    [{"role": "user", "content": tool_results}] *)
Definition user_text (text : pystr) : message :=
  Message (py "user") (Text text).
Definition assistant_message (blocks : list block) : message :=
  Message (py "assistant") (Blocks blocks).
Definition user_results (results : list tool_result) : message :=
  Message (py "user") (ToolResults results).

(** * Tool definitions *)

Record property := Property {
  prop_type : pystr;
  prop_enum : option (list pystr);
  prop_description : pystr;
}.

Record schema := Schema {
  properties : list (pystr * property);
  required : option (list pystr);
}.

Record tool := Tool {
  name : pystr;
  description : pystr;
  input_schema : schema;
}.

Definition string_property (d : string) : property :=
  Property (py "string") None (py d).

Definition main_tools : list tool := [
  Tool (py "bash") (py "Run a bash command and return the output")
    (Schema [(py "command", string_property "The bash command to run")]
            (Some [py "command"]));
  Tool (py "read") (py "Read the contents of a file")
    (Schema [(py "path", string_property "Path to the file to read")]
            (Some [py "path"]));
  Tool (py "write") (py "Write content to a file (creates or overwrites)")
    (Schema [(py "path", string_property "Path to the file to write");
             (py "content", string_property "Content to write to the file")]
            (Some [py "path"; py "content"]));
  Tool (py "edit")
    (py "Edit a file by replacing old_string with new_string. The old_string must match exactly.")
    (Schema [(py "path", string_property "Path to the file to edit");
             (py "old_string", string_property "The exact string to find and replace");
             (py "new_string", string_property "The string to replace it with")]
            (Some [py "path"; py "old_string"; py "new_string"]));
  Tool (py "todo_add") (py "Add a new task to the todo list")
    (Schema [(py "task", string_property "Description of the task")]
            (Some [py "task"]));
  Tool (py "todo_update") (py "Update the status of a task")
    (Schema [(py "index",
              Property (py "integer") None (py "Task index (0-based)"));
             (py "status",
              Property (py "string")
                (Some [py "pending"; py "in_progress"; py "done"])
                (py "New status for the task"))]
            (Some [py "index"; py "status"]));
  Tool (py "todo_list") (py "List all tasks with their status")
    (Schema [] None);
  Tool (py "task")
    (py "Spawn a subagent to handle an isolated task. The subagent has its own context and tools (bash, read, write, edit). Use for independent subtasks.")
    (Schema [(py "description",
              string_property "Clear, complete description of what the subagent should do")]
            (Some [py "description"]))
].

(** [[t for t in main_tools if t["name"] not in [...]]] *)
Definition subagent_tools : list tool :=
  filter (fun t => name t ∉ [py "task"; py "todo_add"; py "todo_update"; py "todo_list"])
         main_tools.

Definition SYSTEM_PROMPT : pystr := py
"You are a helpful coding assistant that can delegate tasks to subagents.

IMPORTANT WORKFLOW:
1. For complex tasks, break them down using todo_add
2. For isolated subtasks, spawn a subagent using the 'task' tool
3. Subagents have their own context - give them clear, complete instructions
4. Review subagent results and integrate their work

When to use subagents:
- Tasks that can be done independently
- When you want isolated context (won't pollute your main conversation)
- Parallel-style work (research, then implement)

Tools:
- bash: Run shell commands
- read: Read file contents
- write: Create/overwrite files
- edit: Find and replace in files
- todo_add/todo_update/todo_list: Track your tasks
- task: Spawn a subagent for isolated work

Be strategic about delegation. You're the orchestrator.".

Definition SUBAGENT_SYSTEM : pystr := py
"You are a focused coding assistant working on a specific task.
You have access to bash, read, write, and edit tools.
Complete your assigned task efficiently and report back.
Do not ask questions - make reasonable decisions and proceed.".

(** The keyword arguments of one [client.messages.create] call. *)
Record request := Request {
  req_model : pystr;
  req_max_tokens : Z;
  req_system : pystr;
  req_tools : list tool;
  req_messages : list message;
}.

(** The request both loops send: a fixed model and token limit. *)
Definition request_of (system : pystr) (tools : list tool)
    (messages : list message) : request :=
  Request (py "claude-sonnet-4-20250514") 4096 system tools messages.

(** One call of the service and what it answered. *)
Record exchange := Exchange {
  ex_request : request;
  ex_response : response;
}.

(** * Process state *)

(** The exceptions the program meets, all subclasses of [Exception]:
    those it tells apart, those of the file store of the examples, and
    any other one under [OtherException]. *)
Inductive exn :=
  | KeyError (key : pystr)
  | FileNotFoundError (path : pystr)
  | FileExistsError (path : pystr)
  | IsADirectoryError (path : pystr)
  | NotADirectoryError (path : pystr)
  | TimeoutExpired
  | OtherException (what : pystr).

(** What the program knows of the file system: the text last written to
    every path, keyed by the path as written, and a set of directories.
    What a path holds when it is read, which paths are the same file and
    which accesses fail is decided by the operations of [Env]. *)
Record filesystem := FileSystem {
  files : gmap pystr pystr;
  dirs : gset pystr;
}.

(** [{"task": ..., "status": ...}] *)
Record todo := Todo {
  task : pystr;
  status : pystr;
}.

(** [{"task": ..., "status": ..., "turns": ...}] *)
Record subagent := Subagent {
  sa_task : pystr;
  sa_status : pystr;
  sa_turns : Z;
}.

(** [r["status"] = s] and [r["turns"] = n] *)
Definition set_sa_status (s : pystr) (r : subagent) : subagent :=
  Subagent (sa_task r) s (sa_turns r).
Definition set_sa_turns (n : Z) (r : subagent) : subagent :=
  Subagent (sa_task r) (sa_status r) n.

Record world := World {
  fs : filesystem;
  todos : list todo;
  subagents : list subagent;
  (** every call made to the reasoning service so far, oldest first *)
  exchanges : list exchange;
}.

(** * The state and exception monad *)

Inductive outcome (A : Type) :=
  | Ok (a : A) (w : world)
  | Raise (e : exn) (w : world).
Arguments Ok {A} a w.
Arguments Raise {A} e w.

(** The value returned, if any, and the state left in either case. *)
Definition result_of {A} (o : outcome A) : option A :=
  match o with Ok a _ => Some a | Raise _ _ => None end.
Definition world_of {A} (o : outcome A) : world :=
  match o with Ok _ w => w | Raise _ w => w end.

Definition M (A : Type) : Type := world -> outcome A.

Definition ret {A} (a : A) : M A := fun w => Ok a w.

Definition bind {A B} (m : M A) (k : A -> M B) : M B :=
  fun w =>
    match m w with
    | Ok a w' => k a w'
    | Raise e w' => Raise e w'
    end.

Definition raise {A} (e : exn) : M A := fun w => Raise e w.

(** [try: body  except Exception as e: handler(e)]; what [body] did to the
    state before raising stays done. *)
Definition try_except {A} (body : M A) (handler : exn -> M A) : M A :=
  fun w =>
    match body w with
    | Ok a w' => Ok a w'
    | Raise e w' => handler e w'
    end.

Notation "x <- m ;; k" := (bind m (fun x => k))
  (at level 100, m at next level, right associativity).
Notation "m ;;; k" := (bind m (fun _ => k))
  (at level 100, right associativity).

(** [d[key]] on the input dict. *)
Definition getitem {A} (field : option A) (key : string) : M A :=
  match field with
  | Some v => ret v
  | None => raise (KeyError (py key))
  end.

(** * The state of the file system *)

(** [p] is a key of the store. *)
Definition isfile (f : filesystem) (p : pystr) : bool :=
  bool_decide (is_Some (files f !! p)).

(** [p] is a directory of the store: one of [dirs], or the current
    directory or the root as written. *)
Definition isdir (f : filesystem) (p : pystr) : bool :=
  bool_decide (p ∈ dirs f)
  || bool_decide (p = py ".")
  || (bool_decide (p ≠ []) && forallb (fun c => bool_decide (c = sep)) p).

(** The world with its file system replaced. *)
Definition with_fs (w : world) (f : filesystem) : world :=
  World f (todos w) (subagents w) (exchanges w).

(** * The environment *)

(** What the program calls and does not define.
    - [messages_create] is [client.messages.create]: the response may
      depend on the request and on every exchange made before.
    - [subprocess_run command timeout] is [subprocess.run(command,
      shell=True, capture_output=True, text=True, timeout=timeout)]: it
      may change the file system, and gives [(stdout, stderr)] or raises,
      [TimeoutExpired] when the command outlives [timeout] seconds.
    - [os_read path] is [with open(path, "r") as f: f.read()]: the text
      read, or the exception raised; the file system is left as it is.
    - [os_makedirs name] is [os.makedirs(name, exist_ok=True)]: it
      returns ([None]) or raises, and leaves a file system in both cases.
    - [os_write path text] is [with open(path, "w") as f: f.write(text)]:
      [None] when the write goes through, the store then holding [text]
      under [path]; or the exception raised and the file system the
      failed write leaves (a file may have been created or emptied).
    - [str_exn] is the text [f"{e}"] of an exception. *)
Class Env := {
  messages_create : list exchange -> request -> response;
  subprocess_run : pystr -> Z -> filesystem -> (exn + pystr * pystr) * filesystem;
  os_read : pystr -> filesystem -> exn + pystr;
  os_makedirs : pystr -> filesystem -> option exn * filesystem;
  os_write : pystr -> pystr -> filesystem -> option (exn * filesystem);
  str_exn : exn -> pystr;
}.

Section Program.
Context {E : Env}.

(** [subprocess.run] in the monad. *)
Definition run_command (command : pystr) (timeout : Z) : M (pystr * pystr) :=
  fun w =>
    let '(r, f) := subprocess_run command timeout (fs w) in
    match r with
    | inr out => Ok out (with_fs w f)
    | inl e => Raise e (with_fs w f)
    end.

(** [with open(path, "r") as f: content = f.read()] *)
Definition open_read (path : pystr) : M pystr :=
  fun w =>
    match os_read path (fs w) with
    | inr text => Ok text w
    | inl e => Raise e w
    end.

(** [os.makedirs(name, exist_ok=True)] *)
Definition makedirs (name : pystr) : M unit :=
  fun w =>
    let '(r, f) := os_makedirs name (fs w) in
    match r with
    | None => Ok tt (with_fs w f)
    | Some e => Raise e (with_fs w f)
    end.

(** [with open(path, "w") as f: f.write(text)] *)
Definition open_write (path text : pystr) : M unit :=
  fun w =>
    match os_write path text (fs w) with
    | None =>
        Ok tt (with_fs w (FileSystem (<[path := text]> (files (fs w)))
                            (dirs (fs w))))
    | Some (e, f) => Raise e (with_fs w f)
    end.

(** [client.messages.create(model=..., max_tokens=4096, system=...,
    tools=..., messages=...)] *)
Definition create (system : pystr) (tools : list tool) (messages : list message)
  : M response :=
  fun w =>
    let req := request_of system tools messages in
    let resp := messages_create (exchanges w) req in
    Ok resp (World (fs w) (todos w) (subagents w)
               (exchanges w ++ [Exchange req resp])).

(** ** [execute_basic]: the tools shared by both agents.
    [None] signals that the tool was not handled. *)
Definition execute_basic (tool_name : pystr) (tool_input : tool_input)
  : M (option pystr) :=
  if bool_decide (tool_name = py "bash") then
    try_except
      (command <- getitem (in_command tool_input) "command" ;;
       result <- run_command command 120 ;;
       let output := result.1 ++ result.2 in
       ret (Some (match output with [] => py "(no output)" | _ :: _ => output end)))
      (fun e =>
         match e with
         | TimeoutExpired => ret (Some (py "Error: Command timed out after 120 seconds"))
         | _ => ret (Some (py "Error: " ++ str_exn e))
         end)
  else if bool_decide (tool_name = py "read") then
    path <- getitem (in_path tool_input) "path" ;;
    try_except
      (content <- open_read path ;;
       ret (Some (match content with [] => py "(empty file)" | _ :: _ => content end)))
      (fun e =>
         match e with
         | FileNotFoundError _ => ret (Some (py "Error: File not found: " ++ path))
         | _ => ret (Some (py "Error reading file: " ++ str_exn e))
         end)
  else if bool_decide (tool_name = py "write") then
    path <- getitem (in_path tool_input) "path" ;;
    content <- getitem (in_content tool_input) "content" ;;
    try_except
      (makedirs (str_or (dirname path) (py ".")) ;;;
       open_write path content ;;;
       ret (Some (py "Successfully wrote " ++ str_int (len content)
                  ++ py " bytes to " ++ path)))
      (fun e => ret (Some (py "Error writing file: " ++ str_exn e)))
  else if bool_decide (tool_name = py "edit") then
    path <- getitem (in_path tool_input) "path" ;;
    old_string <- getitem (in_old_string tool_input) "old_string" ;;
    new_string <- getitem (in_new_string tool_input) "new_string" ;;
    try_except
      (content <- open_read path ;;
       if negb (str_contains old_string content) then
         ret (Some (py "Error: old_string not found in " ++ path))
       else
         let count := str_count old_string content in
         if (1 <? Z.of_nat count) then
           ret (Some (py "Error: old_string found " ++ str_int (Z.of_nat count)
                      ++ py " times. Make it more specific."))
         else
           let new_content := str_replace old_string new_string content in
           open_write path new_content ;;;
           ret (Some (py "Successfully edited " ++ path)))
      (fun e =>
         match e with
         | FileNotFoundError _ => ret (Some (py "Error: File not found: " ++ path))
         | _ => ret (Some (py "Error editing file: " ++ str_exn e))
         end)
  else ret None.

(** ** The module-level lists *)

Definition with_todos (w : world) (l : list todo) : world :=
  World (fs w) l (subagents w) (exchanges w).
Definition with_subagents (w : world) (l : list subagent) : world :=
  World (fs w) (todos w) l (exchanges w).

Definition get_todos : M (list todo) := fun w => Ok (todos w) w.
Definition set_todos (l : list todo) : M unit :=
  fun w => Ok tt (with_todos w l).
Definition get_subagents : M (list subagent) := fun w => Ok (subagents w) w.
Definition set_subagents (l : list subagent) : M unit :=
  fun w => Ok tt (with_subagents w l).

(** [subagents[i]["status"] = s] and [subagents[i]["turns"] = n], for an
    index in range. *)
Definition set_status (i : nat) (s : pystr) : M unit :=
  l <- get_subagents ;;
  set_subagents (alter (set_sa_status s) i l).

Definition set_turns (i : nat) (n : Z) : M unit :=
  l <- get_subagents ;;
  set_subagents (alter (set_sa_turns n) i l).

(** ** [run_subagent] *)

Definition max_turns : nat := 20.

(** [f"Subagent reached max turns ({max_turns}). Partial work may be
    completed."] *)
Definition max_turns_notice : pystr :=
  py "Subagent reached max turns (" ++ str_int (Z.of_nat max_turns)
  ++ py "). Partial work may be completed.".

(** What one iteration of a loop leaves: the conversation to go on with,
    or the value returned together with the conversation as it stood. *)
Inductive step :=
  | Continue (messages : list message)
  | Return (text : pystr) (messages : list message).

(** The texts of the text blocks joined, with nothing between them: the
    [join] over [b.text for b in response.content if hasattr(b, "text")]. *)
Definition final_text (blocks : list block) : pystr :=
  flat_map (fun b => match b with TextBlock t => t | _ => [] end) blocks.

(** The [for block in response.content] loop of [run_subagent], from the
    lists built so far. *)
Fixpoint subagent_blocks (blocks : list block)
    (assistant_content : list block) (tool_results : list tool_result)
  : M (list block * list tool_result) :=
  match blocks with
  | [] => ret (assistant_content, tool_results)
  | b :: rest =>
      let assistant_content := assistant_content ++ [b] in
      match b with
      | ToolUseBlock id name input =>
          r <- execute_basic name input ;;
          let result :=
            match r with
            | None => py "Unknown tool: " ++ name
            | Some s => s
            end in
          subagent_blocks rest assistant_content
            (tool_results ++ [ToolResult id result])
      | TextBlock _ => subagent_blocks rest assistant_content tool_results
      end
  end.

(** The body of [for turn in range(max_turns)]. *)
Definition subagent_turn (subagent_id : nat) (turn : nat)
    (messages : list message) : M step :=
  set_turns subagent_id (Z.of_nat turn + 1) ;;;
  response <- create SUBAGENT_SYSTEM subagent_tools messages ;;
  lists <- subagent_blocks (content response) [] [] ;;
  let '(assistant_content, tool_results) := lists in
  let messages := messages ++ [assistant_message assistant_content] in
  if bool_decide (stop_reason response ≠ py "tool_use") then
    set_status subagent_id (py "done") ;;;
    ret (Return (final_text (content response)) messages)
  else
    ret (Continue (messages ++ [user_results tool_results])).

Fixpoint subagent_loop (subagent_id : nat) (turns : list nat)
    (messages : list message) : M (pystr * list message) :=
  match turns with
  | [] =>
      set_status subagent_id (py "timeout") ;;;
      ret (max_turns_notice, messages)
  | turn :: rest =>
      s <- subagent_turn subagent_id turn messages ;;
      match s with
      | Return text messages => ret (text, messages)
      | Continue messages => subagent_loop subagent_id rest messages
      end
  end.

(** [run_subagent], returning beside its result the local list
    [messages] as it stood at the [return]. *)
Definition run_subagent_messages (task_description : pystr)
  : M (pystr * list message) :=
  l <- get_subagents ;;
  let subagent_id := length l in
  set_subagents (l ++ [Subagent task_description (py "running") 0]) ;;;
  let messages := [user_text task_description] in
  subagent_loop subagent_id (seq 0 max_turns) messages.

Definition run_subagent (task_description : pystr) : M pystr :=
  r <- run_subagent_messages task_description ;;
  ret r.1.

(** ** [execute]: the main agent's tools *)

Definition status_icons : gmap pystr pystr :=
  <[py "pending" := py "[ ]"]>
    (<[py "in_progress" := py "[~]"]> (<[py "done" := py "[x]"]> ∅)).

(** One line of [todo_list]: [f"{i}. {icon} {todo['task']}"] *)
Definition todo_line (i : nat) (t : todo) : pystr :=
  let icon := default (py "[ ]") (status_icons !! status t) in
  str_int (Z.of_nat i) ++ py ". " ++ icon ++ py " " ++ task t.

Definition execute (tool_name : pystr) (tool_input : tool_input) : M pystr :=
  result <- execute_basic tool_name tool_input ;;
  match result with
  | Some result => ret result
  | None =>
      if bool_decide (tool_name = py "todo_add") then
        task <- getitem (in_task tool_input) "task" ;;
        l <- get_todos ;;
        set_todos (l ++ [Todo task (py "pending")]) ;;;
        l <- get_todos ;;
        ret (py "Added task " ++ str_int (len l - 1) ++ py ": " ++ task)
      else if bool_decide (tool_name = py "todo_update") then
        index <- getitem (in_index tool_input) "index" ;;
        status <- getitem (in_status tool_input) "status" ;;
        l <- get_todos ;;
        if (index <? 0) || (len l <=? index) then
          ret (py "Error: Invalid index " ++ str_int index
               ++ py ". Valid range: 0-" ++ str_int (len l - 1))
        else
          set_todos (alter (fun t => Todo (task t) status) (Z.to_nat index) l) ;;;
          ret (py "Updated task " ++ str_int index ++ py " to " ++ status)
      else if bool_decide (tool_name = py "todo_list") then
        l <- get_todos ;;
        match l with
        | [] => ret (py "No tasks yet.")
        | _ :: _ => ret (str_join newline (imap todo_line l))
        end
      else if bool_decide (tool_name = py "task") then
        description <- getitem (in_description tool_input) "description" ;;
        run_subagent description
      else ret (py "Unknown tool: " ++ tool_name)
  end.

(** ** [agent] *)

(** The [for block in response.content] loop of [agent]. *)
Fixpoint agent_blocks (blocks : list block)
    (assistant_content : list block) (tool_results : list tool_result)
  : M (list block * list tool_result) :=
  match blocks with
  | [] => ret (assistant_content, tool_results)
  | b :: rest =>
      let assistant_content := assistant_content ++ [b] in
      if hasattr_text b then
        agent_blocks rest assistant_content tool_results
      else
        match b with
        | ToolUseBlock id name input =>
            result <- execute name input ;;
            agent_blocks rest assistant_content
              (tool_results ++ [ToolResult id result])
        | TextBlock _ => agent_blocks rest assistant_content tool_results
        end
  end.

(** The body of [while True]. *)
Definition agent_turn (messages : list message) : M step :=
  response <- create SYSTEM_PROMPT main_tools messages ;;
  lists <- agent_blocks (content response) [] [] ;;
  let '(assistant_content, tool_results) := lists in
  let messages := messages ++ [assistant_message assistant_content] in
  if bool_decide (stop_reason response ≠ py "tool_use") then
    ret (Return (final_text (content response)) messages)
  else
    ret (Continue (messages ++ [user_results tool_results])).

(** [while True] run for at most [fuel] iterations; [None] when the loop
    has not returned by then. *)
Fixpoint agent_loop (fuel : nat) (messages : list message)
  : M (option (pystr * list message)) :=
  match fuel with
  | O => ret None
  | S fuel' =>
      s <- agent_turn messages ;;
      match s with
      | Return text messages => ret (Some (text, messages))
      | Continue messages => agent_loop fuel' messages
      end
  end.

Definition agent (fuel : nat) (task : pystr) : M (option pystr) :=
  r <- agent_loop fuel [user_text task] ;;
  ret (fst <$> r).
End Program.

(** * Reference forms for the statements *)

(** The tool invocations of a response, in the order of its blocks, each as
    (correlation identifier, tool name, input). *)
Definition tool_uses (blocks : list block) : list (pystr * pystr * tool_input) :=
  omap (fun b =>
          match b with
          | ToolUseBlock id name input => Some (id, name, input)
          | TextBlock _ => None
          end) blocks.

Definition tool_use_ids (blocks : list block) : list pystr :=
  (fun c => c.1.1) <$> tool_uses blocks.

(** The invocations executed one after the other by [run], each result
    filed under the identifier of its invocation. *)
Fixpoint execute_each (run : pystr -> tool_input -> M pystr)
    (calls : list (pystr * pystr * tool_input)) : M (list tool_result) :=
  match calls with
  | [] => ret []
  | (id, name, input) :: rest =>
      result <- run name input ;;
      results <- execute_each run rest ;;
      ret (ToolResult id result :: results)
  end.

(** How a delegated engine executes one invocation: [execute_basic], and
    the unknown-tool text for what it does not handle. *)
Definition execute_delegated {E : Env} (name : pystr) (input : tool_input) : M pystr :=
  r <- execute_basic name input ;;
  ret (match r with
       | None => py "Unknown tool: " ++ name
       | Some s => s
       end).

(** The texts of the text blocks of a response, in order, put end to
    end. *)
Definition joined_text (blocks : list block) : pystr :=
  concat (omap (fun b =>
                  match b with
                  | TextBlock t => Some t
                  | ToolUseBlock _ _ _ => None
                  end) blocks).

(** [sub] occurs in [s]; and it occurs at two places that do not
    overlap. *)
Definition occurs {A} (sub s : list A) : Prop :=
  exists pre post, s = pre ++ sub ++ post.
Definition occurs_apart {A} (sub s : list A) : Prop :=
  exists pre mid post, s = pre ++ sub ++ mid ++ sub ++ post.

(** The positions of [s] at which a copy of [sub] starts. *)
Definition occurrences {A} `{EqDecision A} (sub s : list A) : list nat :=
  filter (fun i => startswith sub (drop i s) = true) (seq 0 (S (length s))).

(** What the edit handler answers when reading or writing raises [e]. *)
Definition edit_error {E : Env} (path : pystr) (e : exn) : pystr :=
  match e with
  | FileNotFoundError _ => py "Error: File not found: " ++ path
  | _ => py "Error editing file: " ++ str_exn e
  end.

(** The response asks for tool results. *)
Definition wants_tools (r : response) : Prop := stop_reason r = py "tool_use".

(** The tool results answer the tool invocations of [blocks]: they carry
    the identifiers of the invocations in the order of the invocations, so
    the i-th invocation has the i-th result for its answer, the same
    identifiers occur on both sides, and an identifier used by one
    invocation only is carried by exactly one result. *)
Definition answers (blocks : list block) (results : list tool_result) : Prop :=
  tool_use_id <$> results = tool_use_ids blocks
  /\ (forall i id, tool_use_ids blocks !! i = Some id ->
        exists r, results !! i = Some r /\ tool_use_id r = id)
  /\ (forall id, id ∈ (tool_use_id <$> results) <-> id ∈ tool_use_ids blocks)
  /\ (NoDup (tool_use_ids blocks) ->
      forall id, id ∈ tool_use_ids blocks ->
        length (filter (fun r => tool_use_id r = id) results) = 1%nat).

(** ** The trace of a delegated run *)

(** The requests of successive turns: the first sends [messages], and each
    next one sends what the one before sent, followed by the response to
    it as the assistant message and by one user message of tool results
    that carry, in order, the identifiers of the invocations of that
    response. *)
Fixpoint chain (messages : list message) (new : list exchange) : Prop :=
  match new with
  | [] => True
  | x :: rest =>
      req_messages (ex_request x) = messages
      /\ (rest = []
          \/ exists results,
               tool_use_id <$> results = tool_use_ids (content (ex_response x))
               /\ chain (messages
                         ++ [Message (py "assistant") (Blocks (content (ex_response x)));
                             Message (py "user") (ToolResults results)]) rest)
  end.

(** What a run of the loop of [run_subagent] for the record [id], over the
    turns [k, k+1, ..., k+n-1] and from the conversation [messages], has
    done between the states [w] and [w'], whether it returned or raised:
    [new] are the calls it made to the service. *)
Record delegated_run {E : Env} (id k n : nat) (messages : list message)
    (w w' : world) (new : list exchange) : Prop := DelegatedRun {
  dr_exchanges : exchanges w' = exchanges w ++ new;
  dr_calls : (length new <= n)%nat;
  dr_first : (0 < n)%nat -> new ≠ [];
  dr_genuine :
    forall i x, new !! i = Some x ->
      ex_response x = messages_create (exchanges w ++ take i new) (ex_request x);
  dr_requests :
    Forall (fun x => exists sent,
              ex_request x = request_of SUBAGENT_SYSTEM subagent_tools sent) new;
  dr_chain : chain messages new;
  dr_todos : todos w' = todos w;
  dr_length : length (subagents w') = length (subagents w);
  dr_others : forall j, j ≠ id -> subagents w' !! j = subagents w !! j;
  dr_task : sa_task <$> subagents w' !! id = sa_task <$> subagents w !! id;
  dr_turns :
    sa_turns <$> subagents w' !! id =
      match new with
      | [] => sa_turns <$> subagents w !! id
      | _ :: _ => Some (Z.of_nat k + len new)
      end;
}.

(** How the loop ended: on a final response, with the record marked
    "done" and the text of that response returned; or after [n] turns
    that all asked for tools, with the record marked "timeout" and the
    notice returned; or by a [KeyError] of a handler, the status of the
    record left as it was. *)
Definition delegated_end (id n : nat) (w w' : world) (new : list exchange)
    (o : outcome (pystr * list message)) : Prop :=
  match o with
  | Ok (text, _) _ =>
      (exists earlier last,
          new = earlier ++ [last]
          /\ Forall (fun x => wants_tools (ex_response x)) earlier
          /\ ¬ wants_tools (ex_response last)
          /\ sa_status <$> subagents w' !! id = Some (py "done")
          /\ text = final_text (content (ex_response last)))
      \/ (length new = n
          /\ Forall (fun x => wants_tools (ex_response x)) new
          /\ sa_status <$> subagents w' !! id = Some (py "timeout")
          /\ text = max_turns_notice)
  | Raise e _ =>
      (exists key, e = KeyError key)
      /\ Forall (fun x => wants_tools (ex_response x)) (removelast new)
      /\ sa_status <$> subagents w' !! id = sa_status <$> subagents w !! id
  end.

(** ** Inputs that match the declared schemas *)

Definition present {A} (field : option A) : bool :=
  match field with Some _ => true | None => false end.

(** [key in tool_input] *)
Definition has_key (input : tool_input) (key : pystr) : bool :=
  if bool_decide (key = py "command") then present (in_command input)
  else if bool_decide (key = py "path") then present (in_path input)
  else if bool_decide (key = py "content") then present (in_content input)
  else if bool_decide (key = py "old_string") then present (in_old_string input)
  else if bool_decide (key = py "new_string") then present (in_new_string input)
  else if bool_decide (key = py "task") then present (in_task input)
  else if bool_decide (key = py "index") then present (in_index input)
  else if bool_decide (key = py "status") then present (in_status input)
  else if bool_decide (key = py "description") then present (in_description input)
  else false.

(** The input holds every key that the schema of [t] requires. *)
Definition input_matches (t : tool) (input : tool_input) : bool :=
  forallb (has_key input) (default [] (required (input_schema t))).

(** A tool invocation naming one of [main_tools] carries the keys its
    schema requires. *)
Definition block_conforms (b : block) : bool :=
  match b with
  | TextBlock _ => true
  | ToolUseBlock _ n input =>
      forallb (fun t => if bool_decide (name t = n) then input_matches t input else true)
              main_tools
  end.

(** A service whose every response is made of such blocks. *)
Definition conforming (E : Env) : Prop :=
  forall log req, forallb block_conforms (content (messages_create log req)) = true.

(** ** Two properties of computations *)

(** [m] changes nothing but the file system, whether it returns or raises. *)
Definition fs_only {A} (m : M A) : Prop :=
  forall w, exists f, world_of (m w) = with_fs w f.

(** [m] returns, whatever the state it starts from. *)
Definition succeeds {A} (m : M A) : Prop :=
  forall w, exists a w', m w = Ok a w'.

(** * Concrete environments

    Used to run the program on examples: a service that plays a script (the
    n-th call is answered by the n-th response, then by [fallback]), a
    shell that knows three commands, and a small file store. They are
    one behaviour of the environment among those the theorems cover. *)

(** ** A file store

    Paths are told apart as written; a file is read as text with
    universal newlines (the sequences CR LF and CR come out as LF) and
    written as UTF-8, which has no encoding for a surrogate. *)

(** The text of a file as text-mode [read] returns it. *)
Fixpoint universal_newlines (s : pystr) : pystr :=
  match s with
  | [] => []
  | c :: rest =>
      if (c =? 13)%N then
        10%N :: match rest with
                | 10%N :: rest' => universal_newlines rest'
                | _ => universal_newlines rest
                end
      else c :: universal_newlines rest
  end.

(** The string has a UTF-8 encoding: its code points are Unicode scalar
    values. *)
Definition encodable (s : pystr) : bool :=
  forallb (fun c => (c <? 55296)%N || ((57343 <? c)%N && (c <? 1114112)%N)) s.

Definition store_read (path : pystr) (f : filesystem) : exn + pystr :=
  match files f !! path with
  | Some text => inr (universal_newlines text)
  | None =>
      if isdir f path then inl (IsADirectoryError path)
      else inl (FileNotFoundError path)
  end.

(** An existing file is replaced and a new one is created in a directory
    that exists. The file is opened, and so emptied or created, before
    the text is encoded. *)
Definition store_write (path text : pystr) (f : filesystem)
  : option (exn * filesystem) :=
  let '(head, tail) := path_split path in
  let parent := str_or head (py ".") in
  let opened :=
    if encodable text then None
    else Some (OtherException (py "'utf-8' codec can't encode: surrogates not allowed"),
               FileSystem (<[path := []]> (files f)) (dirs f)) in
  if isfile f path then opened
  else if bool_decide (path = []) then Some (FileNotFoundError path, f)
  else if isdir f path || bool_decide (tail = []) then Some (IsADirectoryError path, f)
  else if isfile f parent then Some (NotADirectoryError path, f)
  else if negb (isdir f parent) then Some (FileNotFoundError path, f)
  else opened.

(** A path and the paths above it, as [os.path.dirname] gives them. *)
Fixpoint ancestors (fuel : nat) (name : pystr) : list pystr :=
  match fuel with
  | O => []
  | S fuel' =>
      if forallb (fun c => bool_decide (c = sep)) name then []
      else name :: ancestors fuel' (dirname name)
  end.

(** The directory and those above it are made, unless one of them is a
    file. *)
Definition store_makedirs (name : pystr) (f : filesystem)
  : option exn * filesystem :=
  let above := ancestors (length name) name in
  if bool_decide (name = []) then (Some (FileNotFoundError name), f)
  else if isfile f name then (Some (FileExistsError name), f)
  else if existsb (isfile f) above then (Some (NotADirectoryError name), f)
  else (None, FileSystem (files f) (list_to_set above ∪ dirs f)).

(** ** A shell and a service *)

Definition demo_shell (command : pystr) (timeout : Z) (f : filesystem)
  : (exn + pystr * pystr) * filesystem :=
  if bool_decide (command = py "sleep 200") then
    (if timeout <? 200 then inl TimeoutExpired else inr ([], []), f)
  else if bool_decide (command = py "true") then (inr ([], []), f)
  else if bool_decide (command = py "echo hi; echo oops >&2") then
    (inr (py "hi
", py "oops
"), f)
  else (inl (OtherException (py "exec failed")), f).

Definition demo_str (e : exn) : pystr :=
  match e with
  | KeyError k => py "'" ++ k ++ py "'"
  | FileNotFoundError p => py "[Errno 2] No such file or directory: " ++ p
  | FileExistsError p => py "[Errno 17] File exists: " ++ p
  | IsADirectoryError p => py "[Errno 21] Is a directory: " ++ p
  | NotADirectoryError p => py "[Errno 20] Not a directory: " ++ p
  | TimeoutExpired => py "timed out"
  | OtherException what => what
  end.

Definition scripted (script : list response) (fallback : response) : Env := {|
  messages_create log _ := default fallback (script !! length log);
  subprocess_run := demo_shell;
  os_read := store_read;
  os_makedirs := store_makedirs;
  os_write := store_write;
  str_exn := demo_str;
|}.

(** Input dicts holding just the keys of one tool's schema. *)
Definition bash_input (command : pystr) : tool_input :=
  ToolInput (Some command) None None None None None None None None.
Definition read_input (path : pystr) : tool_input :=
  ToolInput None (Some path) None None None None None None None.
Definition write_input (path content : pystr) : tool_input :=
  ToolInput None (Some path) (Some content) None None None None None None.
Definition edit_input (path old_string new_string : pystr) : tool_input :=
  ToolInput None (Some path) None (Some old_string) (Some new_string)
    None None None None.
Definition todo_add_input (task : pystr) : tool_input :=
  ToolInput None None None None None (Some task) None None None.
Definition todo_update_input (index : Z) (status : pystr) : tool_input :=
  ToolInput None None None None None None (Some index) (Some status) None.
Definition task_input (description : pystr) : tool_input :=
  ToolInput None None None None None None None None (Some description).

Definition empty_fs : filesystem := FileSystem ∅ ∅.
Definition empty_world : world := World empty_fs [] [] [].

Definition say (s : string) : response :=
  Response [TextBlock (py s)] (py "end_turn").

(** A service that answers every call with the final text "done". *)
Definition quiet : Env := scripted [] (say "done").

(** A file system with one file, and a task list with one task. *)
Definition notes_world : world :=
  World (FileSystem {[py "notes.txt" := py "hello world"]} ∅) [] [] [].

Definition planning_world : world :=
  World empty_fs [Todo (py "write tests") (py "pending")] [] [].

(** A service that asks for the same command at every turn and never
    comes to a final answer. *)
Definition relentless : Env :=
  scripted []
    (Response [ToolUseBlock (py "toolu_1") (py "bash") (bash_input (py "true"))]
              (py "tool_use")).


(** A session of the primary agent that delegates once: the first response
    asks for the tool "task", the second (to the subagent) reads a file,
    the third ends the subagent's run and the fourth the agent's. *)
Definition delegating : Env :=
  scripted
    [ Response [TextBlock (py "Let me delegate. ");
                ToolUseBlock (py "toolu_a") (py "task")
                  (task_input (py "summarise notes.txt"))]
               (py "tool_use");
      Response [ToolUseBlock (py "toolu_b") (py "read") (read_input (py "notes.txt"))]
               (py "tool_use");
      Response [TextBlock (py "It says hello world.")] (py "end_turn") ]
    (say "All done.").

(** * Console output

    The texts the program puts on the console: [format_tool_call] returns
    the line shown for a tool call, [print_status] is given as the line it
    prints ([None] when it prints nothing), and [display] is what [agent]
    echoes of a tool result. *)



(** [sum(1 for t in todos if t["status"] == "done")] and
    [sum(1 for s in subagents if s["status"] == "running")] *)
Definition done_count (l : list todo) : nat :=
  length (filter (fun t => status t = py "done") l).
Definition running_count (l : list subagent) : nat :=
  length (filter (fun s => sa_status s = py "running") l).

Definition print_status (w : world) : option pystr :=
  let parts :=
    match todos w with
    | [] => []
    | _ :: _ =>
        [py "Todos: " ++ str_int (Z.of_nat (done_count (todos w)))
         ++ py "/" ++ str_int (len (todos w))]
    end
    ++ match subagents w with
       | [] => []
       | _ :: _ =>
           [py "Subagents: " ++ str_int (len (subagents w)) ++ py " ("
            ++ str_int (Z.of_nat (running_count (subagents w))) ++ py " running)"]
       end in
  match parts with
  | [] => None
  | _ :: _ => Some (py "  " ++ str_join (py " | ") parts)
  end.


(** * Further forms for the statements *)

(** [m] never returns [None]. *)
Definition returns_some {A} (m : M (option A)) : Prop :=
  forall w w', m w ≠ Ok None w'.

(** The stretch of conversation that turns asking for tools leave: for
    each turn, given as the exchange with the service and the tool
    results collected, the response as the assistant message and then
    the results as one user message. *)
Definition exchanged (turns : list (exchange * list tool_result)) : list message :=
  flat_map (fun t => [Message (py "assistant") (Blocks (content (ex_response t.1)));
                      Message (py "user") (ToolResults t.2)]) turns.

(** The response of the turn asked for tools, and the results answer
    its invocations. *)
Definition answered (t : exchange * list tool_result) : Prop :=
  wants_tools (ex_response t.1) /\ answers (content (ex_response t.1)) t.2.

(** * Properties of the string operations *)

Section SubstringFacts.
Context {A : Type} `{EqDecision A}.
Implicit Types sub old new s pre post : list A.

Lemma startswith_app sub s : startswith sub (sub ++ s) = true.
Proof.
  induction sub as [|a sub IH]; simpl; [done|].
  rewrite bool_decide_eq_true_2 by done. exact IH.
Qed.

Lemma startswith_true sub s :
  startswith sub s = true -> s = sub ++ drop (length sub) s.
Proof.
  revert s. induction sub as [|a sub IH]; intros s Hs; simpl in *; [done|].
  destruct s as [|c s]; [done|].
  apply andb_true_iff in Hs as [Hc Hs]. apply bool_decide_eq_true in Hc.
  subst c. simpl. f_equal. by apply IH.
Qed.

Lemma startswith_iff sub s :
  startswith sub s = true <-> exists post, s = sub ++ post.
Proof.
  split.
  - intros Hs. exists (drop (length sub) s). by apply startswith_true.
  - intros [post ->]. apply startswith_app.
Qed.

(** [sub in s] holds exactly when [s] splits around a copy of [sub]. *)
Lemma str_contains_iff sub s :
  str_contains sub s = true <-> exists pre post, s = pre ++ sub ++ post.
Proof.
  induction s as [|c s IH]; simpl.
  - rewrite orb_false_r, startswith_iff. split.
    + intros [post Hp]. by exists [], post.
    + intros (pre & post & Hp). destruct pre; simpl in *; [by exists post|done].
  - rewrite orb_true_iff, startswith_iff, IH. split.
    + intros [[post Hp]|(pre & post & Hp)].
      * by exists [], post.
      * exists (c :: pre), post. by rewrite Hp.
    + intros (pre & post & Hp). destruct pre as [|c' pre]; simpl in *.
      * left. by exists post.
      * right. exists pre, post. congruence.
Qed.

(** Enough fuel: the scan takes at most one step per character. *)
Lemma count_from_fuel sub s m n :
  sub ≠ [] -> (length s ≤ m)%nat -> (length s ≤ n)%nat ->
  count_from m sub s = count_from n sub s.
Proof.
  intros Hsub. revert s n.
  induction m as [|m IH]; intros s n Hm Hn.
  - destruct s; [|simpl in Hm; lia].
    destruct n; simpl; [done|]. by destruct sub.
  - destruct n as [|n].
    + destruct s; [|simpl in Hn; lia]. simpl. by destruct sub.
    + simpl. destruct (startswith sub s) eqn:Hs.
      * f_equal. destruct sub as [|a sub]; [done|]. destruct s as [|c s]; [done|].
        simpl in *. apply IH; rewrite length_drop; lia.
      * destruct s as [|c s]; [done|]. simpl in *. apply IH; lia.
Qed.

Lemma replace_from_fuel old new s m n :
  old ≠ [] -> (length s ≤ m)%nat -> (length s ≤ n)%nat ->
  replace_from m old new s = replace_from n old new s.
Proof.
  intros Hold. revert s n.
  induction m as [|m IH]; intros s n Hm Hn.
  - destruct s; [|simpl in Hm; lia].
    destruct n; simpl; [done|]. by destruct old.
  - destruct n as [|n].
    + destruct s; [|simpl in Hn; lia]. simpl. by destruct old.
    + simpl. destruct (startswith old s) eqn:Hs.
      * f_equal. destruct old as [|a old]; [done|]. destruct s as [|c s]; [done|].
        simpl in *. apply IH; rewrite length_drop; lia.
      * destruct s as [|c s]; [done|]. simpl in *. f_equal. apply IH; lia.
Qed.

(** The equations of [count] and [replace] on a non-empty pattern. *)
Lemma str_count_nil sub : sub ≠ [] -> str_count sub [] = 0%nat.
Proof. by destruct sub. Qed.

Lemma str_count_cons sub c s :
  sub ≠ [] ->
  str_count sub (c :: s) =
    if startswith sub (c :: s)
    then S (str_count sub (drop (length sub) (c :: s)))
    else str_count sub s.
Proof.
  intros Hsub. destruct sub as [|a sub]; [done|].
  unfold str_count. cbn [length count_from].
  destruct (startswith (a :: sub) (c :: s)); [|done].
  f_equal. apply count_from_fuel; [done| |done].
  simpl. rewrite length_drop. lia.
Qed.

Lemma str_replace_cons old new c s :
  old ≠ [] ->
  str_replace old new (c :: s) =
    if startswith old (c :: s)
    then new ++ str_replace old new (drop (length old) (c :: s))
    else c :: str_replace old new s.
Proof.
  intros Hold. destruct old as [|a old]; [done|].
  unfold str_replace. cbn [length replace_from].
  destruct (startswith (a :: old) (c :: s)); [|done].
  f_equal. apply replace_from_fuel; [done| |done].
  simpl. rewrite length_drop. lia.
Qed.

(** [old not in s] is [s.count(old) == 0]. *)
Lemma str_contains_count sub s :
  str_contains sub s = false <-> str_count sub s = 0%nat.
Proof.
  destruct (decide (sub = [])) as [->|Hsub].
  { destruct s; simpl; split; done. }
  induction s as [|c s IH].
  - rewrite str_count_nil by done. simpl. destruct sub; [done|]. by simpl.
  - rewrite str_count_cons by done. cbn [str_contains].
    destruct (startswith sub (c :: s)); simpl; [split; done|exact IH].
Qed.

(** Without an occurrence, [replace] changes nothing. *)
Lemma str_replace_none old new s :
  str_count old s = 0%nat -> str_replace old new s = s.
Proof.
  destruct (decide (old = [])) as [->|Hold]; [done|].
  induction s as [|c s IH]; intros Hc.
  - by destruct old.
  - rewrite str_count_cons in Hc by done. rewrite str_replace_cons by done.
    destruct (startswith old (c :: s)); [done|]. f_equal. by apply IH.
Qed.

(** With exactly one occurrence counted, [replace] substitutes [new] for
    the leftmost copy of [old] and leaves the rest as it was. *)
Lemma str_replace_once old new s :
  str_count old s = 1%nat ->
  exists pre post,
    s = pre ++ old ++ post
    /\ str_replace old new s = pre ++ new ++ post
    /\ (old ≠ [] -> str_count old post = 0%nat)
    /\ (forall p q, s = p ++ old ++ q -> (length pre ≤ length p)%nat).
Proof.
  destruct (decide (old = [])) as [->|Hold].
  { simpl. intros Hc. destruct s; [|done]. exists [], []. simpl.
    rewrite app_nil_r. split_and!; try done. intros; simpl; lia. }
  induction s as [|c s IH]; intros Hc.
  - by rewrite str_count_nil in Hc.
  - rewrite str_count_cons in Hc by done. rewrite str_replace_cons by done.
    destruct (startswith old (c :: s)) eqn:Hs.
    + exists [], (drop (length old) (c :: s)). simpl.
      split; [by apply startswith_true|].
      injection Hc as Hc. rewrite (str_replace_none _ _ _ Hc).
      split_and!; try done. intros; simpl; lia.
    + destruct (IH Hc) as (pre & post & -> & Hr & Hp & Hmin).
      exists (c :: pre), post. simpl. rewrite Hr. split_and!; try done.
      intros p q Hpq. destruct p as [|c' p]; simpl in *.
      * rewrite Hpq, startswith_app in Hs. done.
      * injection Hpq as _ Hpq. specialize (Hmin _ _ Hpq). lia.
Qed.
End SubstringFacts.

(** * The monad *)

Lemma bind_Ok {A B} (m : M A) (k : A -> M B) w b w'' :
  bind m k w = Ok b w'' <-> exists a w', m w = Ok a w' /\ k a w' = Ok b w''.
Proof.
  unfold bind. destruct (m w) as [a w'|e w'].
  - split; [by exists a, w'|]. by intros (? & ? & [= <- <-] & ?).
  - split; [done|]. by intros (? & ? & ? & ?).
Qed.


(** * The command-execution handler *)

Section Bash.
Context {E : Env}.

(** [C7] The command is run with a timeout of 120 seconds. A command that
    outlives it ([subprocess.run] raises [TimeoutExpired]) yields the
    literal timeout message, as a result and not as an exception; a
    command that completes yields its standard output followed by its
    standard error, and the literal "(no output)" exactly when both are
    empty; any other failure yields an error text. *)
Theorem bash_timeout_and_output (w : world) (input : tool_input) (command : pystr) :
  in_command input = Some command ->
  execute_basic (py "bash") input w =
    match subprocess_run command 120 (fs w) with
    | (inr (stdout, stderr), f) =>
        Ok (Some match stdout, stderr with
                 | [], [] => py "(no output)"
                 | _, _ => stdout ++ stderr
                 end) (with_fs w f)
    | (inl TimeoutExpired, f) =>
        Ok (Some (py "Error: Command timed out after 120 seconds")) (with_fs w f)
    | (inl e, f) => Ok (Some (py "Error: " ++ str_exn e)) (with_fs w f)
    end.
Proof.
  intros Hc. unfold execute_basic.
  rewrite bool_decide_eq_true_2 by done.
  unfold try_except, bind, run_command. rewrite Hc. simpl.
  destruct (subprocess_run command 120 (fs w)) as [[e|[out err]] f]; simpl.
  - by destruct e.
  - by destruct out, err.
Qed.
End Bash.

Lemma bash_timeout_and_output_witness :
  in_command (bash_input (py "sleep 200")) = Some (py "sleep 200")
  /\ @execute_basic quiet (py "bash") (bash_input (py "sleep 200")) empty_world
     = Ok (Some (py "Error: Command timed out after 120 seconds")) empty_world.
Proof.
  split; [reflexivity|].
  exact (@bash_timeout_and_output quiet empty_world
           (bash_input (py "sleep 200")) (py "sleep 200") eq_refl).
Defined.


(** * The file handlers *)

(** Decides the comparisons of [tool_name] with the literal names. *)
Ltac dispatch :=
  repeat first
    [ rewrite bool_decide_eq_true_2 by reflexivity
    | rewrite bool_decide_eq_false_2
        by (let Hn := fresh in intros Hn; vm_compute in Hn; discriminate Hn) ].

(** * Occurrences and [count] *)

Section Occurrences.
Context {A : Type} `{EqDecision A}.
Implicit Types sub s pre mid post : list A.

Lemma str_count_occurs sub s :
  str_count sub s = 0%nat <-> ¬ occurs sub s.
Proof.
  rewrite <- str_contains_count. unfold occurs.
  rewrite <- str_contains_iff. by destruct (str_contains sub s).
Qed.

(** [count] exceeds one exactly when two copies lie apart: copies that
    overlap are counted once. *)
Lemma str_count_apart sub s :
  sub ≠ [] -> (1 < str_count sub s)%nat <-> occurs_apart sub s.
Proof.
  intros Hsub. induction s as [|c s IH].
  - rewrite str_count_nil by done. split; [lia|].
    intros (pre & mid & post & Hs). apply (f_equal length) in Hs.
    rewrite !length_app in Hs. destruct sub; [done|]. simpl in Hs. lia.
  - rewrite str_count_cons by done.
    destruct (startswith sub (c :: s)) eqn:Hstart.
    + pose proof (startswith_true _ _ Hstart) as Hs.
      split.
      * intros Hn.
        assert (Hrest : str_contains sub (drop (length sub) (c :: s)) = true).
        { destruct (str_contains sub (drop (length sub) (c :: s))) eqn:Hc; [done|].
          apply str_contains_count in Hc. lia. }
        apply str_contains_iff in Hrest as (mid & post & Hrest).
        exists [], mid, post. rewrite Hs at 1. by rewrite Hrest.
      * intros (pre & mid & post & Hdec).
        assert (Hrest : str_contains sub (drop (length sub) (c :: s)) = true).
        { apply str_contains_iff. rewrite Hdec.
          exists (drop (length sub) (pre ++ sub ++ mid)), post.
          assert (Heq : pre ++ sub ++ mid ++ sub ++ post
                        = (pre ++ sub ++ mid) ++ sub ++ post)
            by (by rewrite <- !app_assoc).
          rewrite Heq, drop_app_le; [done|]. rewrite !length_app. lia. }
        destruct (str_count sub (drop (length sub) (c :: s))) eqn:Hc; [|lia].
        apply str_contains_count in Hc. congruence.
    + rewrite IH. split.
      * intros (pre & mid & post & ->). by exists (c :: pre), mid, post.
      * intros (pre & mid & post & Hdec). destruct pre as [|c' pre].
        { simpl in Hdec. rewrite Hdec, startswith_app in Hstart. done. }
        injection Hdec as -> ->. by exists pre, mid, post.
Qed.
End Occurrences.

(** Replacing a string by itself gives the text back. *)
Lemma replace_from_same {A} `{EqDecision A} fuel (old s : list A) :
  replace_from fuel old old s = s.
Proof.
  revert s. induction fuel as [|fuel IH]; intros s; [done|].
  cbn [replace_from]. destruct (startswith old s) eqn:Hs.
  - rewrite IH. symmetry. by apply startswith_true.
  - destruct s; [done|]. by rewrite IH.
Qed.

Lemma str_replace_same {A} `{EqDecision A} (old s : list A) :
  str_replace old old s = s.
Proof.
  destruct old as [|a old]; [|apply replace_from_same].
  cbn [str_replace app]. induction s as [|c s IH]; [done|].
  cbn [flat_map app]. by rewrite IH.
Qed.

(** * The file-edit handler *)

(** Refutes an equation between two outcomes whose answers begin with
    different characters. *)
Ltac answers_differ H :=
  apply (f_equal (fun o : outcome (option pystr) =>
                    match o with Ok (Some r) _ => head r | _ => None end)) in H;
  vm_compute in H; discriminate H.

Section Edit.
Context {E : Env}.

(** The edit handler, step by step. *)
Lemma edit_unfold (w : world) (input : tool_input)
    (path old_string new_string : pystr) :
  in_path input = Some path ->
  in_old_string input = Some old_string ->
  in_new_string input = Some new_string ->
  execute_basic (py "edit") input w =
    match os_read path (fs w) with
    | inl e => Ok (Some (edit_error path e)) w
    | inr content =>
        if negb (str_contains old_string content) then
          Ok (Some (py "Error: old_string not found in " ++ path)) w
        else if 1 <? Z.of_nat (str_count old_string content) then
          Ok (Some (py "Error: old_string found "
                    ++ str_int (Z.of_nat (str_count old_string content))
                    ++ py " times. Make it more specific.")) w
        else
          match os_write path (str_replace old_string new_string content) (fs w) with
          | None =>
              Ok (Some (py "Successfully edited " ++ path))
                 (with_fs w (FileSystem
                               (<[path := str_replace old_string new_string content]>
                                  (files (fs w)))
                               (dirs (fs w))))
          | Some (e, f) => Ok (Some (edit_error path e)) (with_fs w f)
          end
    end.
Proof.
  intros Hp Ho Hn. unfold execute_basic. dispatch.
  rewrite Hp, Ho, Hn. unfold getitem, bind at 1 2 3, ret at 1 2 3.
  unfold try_except, bind at 1, open_read.
  destruct (os_read path (fs w)) as [e|content].
  - unfold edit_error. by destruct e.
  - destruct (str_contains old_string content); cbn [negb]; [|done].
    destruct (1 <? _); [done|].
    unfold bind, open_write.
    destruct (os_write path _ (fs w)) as [[e f]|]; [|done].
    unfold edit_error. by destruct e.
Qed.

Lemma edit_error_is_no_success path path' e :
  edit_error path e ≠ py "Successfully edited " ++ path'.
Proof.
  intros Heq. apply (f_equal head) in Heq.
  unfold edit_error in Heq. destruct e; by vm_compute in Heq.
Qed.
End Edit.

Section EditClaim.
Context {E : Env}.

(** [C5] The edit handler works on the text that reading the file
    returns, and counts [old_string] in it as [str.count] does: none when
    it does not occur, more than one exactly when two copies lie apart
    (copies that overlap count once). With none it answers the not-found
    error and with more than one the ambiguity error that reports the
    count, and in both cases nothing is written and the state is as it
    was. With exactly one it writes back the text read with that copy,
    the leftmost and followed by no other, replaced by [new_string]; it
    answers success exactly when that write goes through, and otherwise
    the error of the failed write, the file system being as the failed
    write left it. *)
Theorem edit_requires_one_occurrence
    (w : world) (input : tool_input) (path old_string new_string content : pystr) :
  in_path input = Some path ->
  in_old_string input = Some old_string ->
  in_new_string input = Some new_string ->
  os_read path (fs w) = inr content ->
  let n := str_count old_string content in
  let outcome := execute_basic (py "edit") input w in
  let success := Some (py "Successfully edited " ++ path) in
  (old_string ≠ [] ->
     (n = 0%nat <-> ¬ occurs old_string content)
     /\ ((1 < n)%nat <-> occurs_apart old_string content))
  /\ (old_string = [] -> n = S (length content))
  /\ (n = 0%nat ->
     outcome = Ok (Some (py "Error: old_string not found in " ++ path)) w)
  /\ ((1 < n)%nat ->
     outcome = Ok (Some (py "Error: old_string found " ++ str_int (Z.of_nat n)
                         ++ py " times. Make it more specific.")) w)
  /\ (n = 1%nat ->
     exists pre post,
       content = pre ++ old_string ++ post
       /\ (forall p q, content = p ++ old_string ++ q -> (length pre ≤ length p)%nat)
       /\ (old_string ≠ [] -> ¬ occurs old_string post)
       /\ str_replace old_string new_string content = pre ++ new_string ++ post
       /\ outcome =
            match os_write path (pre ++ new_string ++ post) (fs w) with
            | None =>
                Ok success
                   (with_fs w (FileSystem
                                 (<[path := pre ++ new_string ++ post]> (files (fs w)))
                                 (dirs (fs w))))
            | Some (e, f) =>
                Ok (Some match e with
                         | FileNotFoundError _ => py "Error: File not found: " ++ path
                         | _ => py "Error editing file: " ++ str_exn e
                         end) (with_fs w f)
            end
       /\ ((exists w', outcome = Ok success w')
           <-> os_write path (pre ++ new_string ++ post) (fs w) = None))
  /\ ((exists w', outcome = Ok success w') -> n = 1%nat).
Proof.
  intros Hp Ho Hn Hr n outcome success. subst outcome success.
  rewrite (edit_unfold w input path old_string new_string Hp Ho Hn), Hr.
  assert (Hzero : n = 0%nat -> str_contains old_string content = false)
    by apply str_contains_count.
  split_and!.
  - intros Hold. split; [apply str_count_occurs|by apply str_count_apart].
  - by intros ->.
  - intros Hz. by rewrite (Hzero Hz).
  - intros Hm. clear Hzero.
    destruct (str_contains old_string content) eqn:Hc; cbn [negb].
    + fold n. destruct (Z.ltb_spec 1 (Z.of_nat n)); [done|lia].
    + apply str_contains_count in Hc. change (n = 0%nat) in Hc. lia.
  - intros H1. clear Hzero.
    destruct (str_replace_once old_string new_string content H1)
      as (pre & post & Hs & Hrep & Hpost & Hmin).
    exists pre, post.
    assert (Hc : str_contains old_string content = true).
    { destruct (str_contains old_string content) eqn:Hc; [done|].
      apply str_contains_count in Hc. change (n = 0%nat) in Hc. lia. }
    rewrite Hc, Hrep. cbn [negb]. fold n.
    destruct (Z.ltb_spec 1 (Z.of_nat n)); [lia|].
    split_and!; [done|done| |done| |].
    + intros Hne. by apply str_count_occurs, Hpost.
    + destruct (os_write path (pre ++ new_string ++ post) (fs w)) as [[e f]|]; [|done].
      unfold edit_error. by destruct e.
    + destruct (os_write path (pre ++ new_string ++ post) (fs w)) as [[e f]|].
      * split; [|done]. intros [w' [= Hw _]]. by apply edit_error_is_no_success in Hw.
      * split; [done|]. intros _. by eexists.
  - intros [w' Hw].
    destruct (decide (n = 0%nat)) as [Hz|Hnz].
    { rewrite (Hzero Hz) in Hw. cbn [negb] in Hw.
      answers_differ Hw. }
    clear Hzero.
    destruct (str_contains old_string content) eqn:Hc; cbn [negb] in Hw.
    + fold n in Hw. destruct (Z.ltb_spec 1 (Z.of_nat n)); [|lia].
      answers_differ Hw.
    + answers_differ Hw.
Qed.

(** [X16] When the file cannot be read the edit handler writes nothing,
    changes nothing and does not raise: it answers the not-found error
    when [open] raised [FileNotFoundError], and the text of the exception
    after "Error editing file: " for any other exception. *)
Theorem edit_without_a_file_changes_nothing
    (w : world) (input : tool_input) (path old_string new_string : pystr) (e : exn) :
  in_path input = Some path ->
  in_old_string input = Some old_string ->
  in_new_string input = Some new_string ->
  os_read path (fs w) = inl e ->
  execute_basic (py "edit") input w
  = Ok (Some match e with
             | FileNotFoundError _ => py "Error: File not found: " ++ path
             | _ => py "Error editing file: " ++ str_exn e
             end) w.
Proof.
  intros Hp Ho Hn Hr.
  rewrite (edit_unfold w input path old_string new_string Hp Ho Hn), Hr.
  unfold edit_error. by destruct e.
Qed.

(** [X17] An edit that replaces a string by itself, where the string
    occurs in the text read and no two copies of it lie apart, hands back
    to the file system exactly the text it read: the file is rewritten
    with that text, and the answer is success when the write goes
    through and the error of the failed write otherwise. *)
Theorem edit_by_itself_writes_back_what_it_read
    (w : world) (input : tool_input) (path old_string content : pystr) :
  in_path input = Some path ->
  in_old_string input = Some old_string ->
  in_new_string input = Some old_string ->
  os_read path (fs w) = inr content ->
  old_string ≠ [] ->
  occurs old_string content ->
  ¬ occurs_apart old_string content ->
  execute_basic (py "edit") input w
  = match os_write path content (fs w) with
    | None =>
        Ok (Some (py "Successfully edited " ++ path))
           (with_fs w (FileSystem (<[path := content]> (files (fs w))) (dirs (fs w))))
    | Some (e, f) =>
        Ok (Some match e with
                 | FileNotFoundError _ => py "Error: File not found: " ++ path
                 | _ => py "Error editing file: " ++ str_exn e
                 end) (with_fs w f)
    end.
Proof.
  intros Hp Ho Hn Hr Hne Hocc Hapart.
  rewrite (edit_unfold w input path old_string old_string Hp Ho Hn), Hr.
  assert (H1 : str_count old_string content = 1%nat).
  { pose proof (str_count_occurs old_string content) as H0.
    pose proof (str_count_apart old_string content Hne) as H2.
    destruct (str_count old_string content) as [|[|n]]; [|done|].
    - by destruct (proj1 H0 eq_refl).
    - destruct Hapart. apply H2. lia. }
  assert (Hc : str_contains old_string content = true).
  { destruct (str_contains old_string content) eqn:Hc; [done|].
    apply str_contains_count in Hc. congruence. }
  rewrite Hc, H1, str_replace_same. cbn [negb].
  change (1 <? Z.of_nat 1) with false. cbv iota.
  destruct (os_write path content (fs w)) as [[e f]|]; [|done].
  unfold edit_error. by destruct e.
Qed.
End EditClaim.

Lemma edit_requires_one_occurrence_witness :
  @os_read quiet (py "notes.txt") (fs notes_world) = inr (py "hello world")
  /\ exists w',
      @execute_basic quiet (py "edit")
        (edit_input (py "notes.txt") (py "world") (py "there")) notes_world
      = Ok (Some (py "Successfully edited notes.txt")) w'.
Proof.
  assert (Hr : @os_read quiet (py "notes.txt") (fs notes_world) = inr (py "hello world"))
    by (vm_compute; reflexivity).
  split; [exact Hr|].
  destruct (@edit_requires_one_occurrence quiet notes_world
              (edit_input (py "notes.txt") (py "world") (py "there"))
              (py "notes.txt") (py "world") (py "there") (py "hello world")
              eq_refl eq_refl eq_refl Hr)
    as (_ & _ & _ & _ & Hone & _).
  destruct (Hone ltac:(vm_compute; reflexivity))
    as (pre & post & _ & _ & _ & Hrep & _ & Hiff).
  apply Hiff. rewrite <- Hrep. vm_compute. reflexivity.
Defined.

(** [C5] The claim as the specification words it fails on three files.
    A file holding the three characters x, CR, y holds CR exactly once,
    and the edit of CR answers the not-found error: the text read has LF
    in its place. In the text aaa the string aa starts at two places,
    and the edit succeeds, replacing the first. And where hello occurs
    once and the new string has no encoding, the edit does not succeed
    and the file is left empty. *)
Lemma edit_not_by_occurrences_in_the_file :
  occurrences [13%N] [120%N; 13%N; 121%N] = [1%nat]
  /\ @execute_basic quiet (py "edit") (edit_input (py "a.txt") [13%N] (py "-"))
       (World (FileSystem {[py "a.txt" := [120%N; 13%N; 121%N]]} ∅) [] [] [])
     = Ok (Some (py "Error: old_string not found in a.txt"))
          (World (FileSystem {[py "a.txt" := [120%N; 13%N; 121%N]]} ∅) [] [] [])
  /\ occurrences (py "aa") (py "aaa") = [0%nat; 1%nat]
  /\ @execute_basic quiet (py "edit") (edit_input (py "a.txt") (py "aa") (py "b"))
       (World (FileSystem {[py "a.txt" := py "aaa"]} ∅) [] [] [])
     = Ok (Some (py "Successfully edited a.txt"))
          (World (FileSystem {[py "a.txt" := py "ba"]} ∅) [] [] [])
  /\ occurrences (py "hello") (py "hello") = [0%nat]
  /\ match @execute_basic quiet (py "edit")
             (edit_input (py "a.txt") (py "hello") [55296%N])
             (World (FileSystem {[py "a.txt" := py "hello"]} ∅) [] [] []) with
     | Ok (Some answer) w' =>
         startswith (py "Error editing file: ") answer = true
         /\ files (fs w') !! py "a.txt" = Some []
     | _ => False
     end.
Proof. split_and!; vm_compute; try split; reflexivity. Qed.

Lemma edit_without_a_file_changes_nothing_witness :
  @os_read quiet (py "todo.txt") (fs notes_world) = inl (FileNotFoundError (py "todo.txt"))
  /\ @execute_basic quiet (py "edit")
       (edit_input (py "todo.txt") (py "a") (py "b")) notes_world
     = Ok (Some (py "Error: File not found: todo.txt")) notes_world.
Proof.
  assert (Hr : @os_read quiet (py "todo.txt") (fs notes_world)
               = inl (FileNotFoundError (py "todo.txt")))
    by (vm_compute; reflexivity).
  split; [exact Hr|].
  exact (@edit_without_a_file_changes_nothing quiet notes_world
           (edit_input (py "todo.txt") (py "a") (py "b"))
           (py "todo.txt") (py "a") (py "b") _ eq_refl eq_refl eq_refl Hr).
Defined.

Lemma edit_by_itself_writes_back_what_it_read_witness :
  @os_read quiet (py "notes.txt") (fs notes_world) = inr (py "hello world")
  /\ occurs (py "hello") (py "hello world")
  /\ @execute_basic quiet (py "edit")
       (edit_input (py "notes.txt") (py "hello") (py "hello")) notes_world
     = Ok (Some (py "Successfully edited notes.txt")) notes_world.
Proof.
  assert (Hr : @os_read quiet (py "notes.txt") (fs notes_world) = inr (py "hello world"))
    by (vm_compute; reflexivity).
  assert (Hocc : occurs (py "hello") (py "hello world")).
  { apply str_contains_iff. vm_compute. reflexivity. }
  assert (Hapart : ¬ occurs_apart (py "hello") (py "hello world")).
  { intros Ha. apply str_count_apart in Ha; [|by vm_compute].
    vm_compute in Ha. lia. }
  split_and!; [exact Hr|exact Hocc|].
  rewrite (@edit_by_itself_writes_back_what_it_read quiet notes_world
             (edit_input (py "notes.txt") (py "hello") (py "hello"))
             (py "notes.txt") (py "hello") (py "hello world")
             eq_refl eq_refl eq_refl Hr ltac:(by vm_compute) Hocc Hapart).
  vm_compute. reflexivity.
Defined.

(** * The task list *)

(** Decides a closed statement about literal names by evaluation. *)
Ltac decide_names := apply (bool_decide_unpack _); vm_compute; exact I.

Section Todos.
Context {E : Env}.

(** The shared handlers know four names and leave every other one to the
    caller, without touching the state. *)
Lemma execute_basic_unhandled (tool_name : pystr) (input : tool_input) (w : world) :
  tool_name ∉ [py "bash"; py "read"; py "write"; py "edit"] ->
  execute_basic tool_name input w = Ok None w.
Proof.
  intros Hn. unfold execute_basic.
  repeat case_bool_decide; subst; try done; exfalso; apply Hn; set_solver.
Qed.

Lemma todo_update_unfold (w : world) (input : tool_input) (i : Z) (s : pystr) :
  in_index input = Some i ->
  in_status input = Some s ->
  execute (py "todo_update") input w =
    if (i <? 0) || (len (todos w) <=? i) then
      Ok (py "Error: Invalid index " ++ str_int i
          ++ py ". Valid range: 0-" ++ str_int (len (todos w) - 1)) w
    else
      Ok (py "Updated task " ++ str_int i ++ py " to " ++ s)
         (with_todos w (alter (fun t => Todo (task t) s) (Z.to_nat i) (todos w))).
Proof.
  intros Hi Hs. unfold execute, bind at 1.
  rewrite execute_basic_unhandled
    by decide_names.
  dispatch. rewrite Hi, Hs. unfold getitem, bind, ret, get_todos, set_todos.
  by destruct ((i <? 0) || (len (todos w) <=? i)).
Qed.



End Todos.



(** * More on the task list *)


Lemma done_count_alter (s : pystr) (i : nat) (l : list todo) (t : todo) :
  l !! i = Some t ->
  (done_count (alter (fun t => Todo (task t) s) i l)
   + (if bool_decide (status t = py "done") then 1 else 0)
   = done_count l + (if bool_decide (s = py "done") then 1 else 0))%nat.
Proof.
  unfold done_count. revert i. induction l as [|x l IH]; intros [|i] Hi; try done.
  - injection Hi as ->. cbn [alter list_alter].
    rewrite !filter_cons. cbn [status].
    destruct (decide (s = py "done")), (decide (status t = py "done"));
      repeat case_bool_decide; try done; cbn [length]; lia.
  - cbn [alter list_alter]. simpl in Hi. specialize (IH i Hi).
    rewrite !filter_cons.
    destruct (decide (status x = py "done")); cbn [length]; lia.
Qed.

Section MoreTodos.
Context {E : Env}.

Lemma todo_add_unfold (w : world) (input : tool_input) (t : pystr) :
  in_task input = Some t ->
  execute (py "todo_add") input w =
    Ok (py "Added task " ++ str_int (len (todos w ++ [Todo t (py "pending")]) - 1)
        ++ py ": " ++ t)
       (with_todos w (todos w ++ [Todo t (py "pending")])).
Proof.
  intros Ht. unfold execute, bind at 1.
  rewrite execute_basic_unhandled by decide_names.
  dispatch. by rewrite Ht.
Qed.

(** [X10] Adding a task appends a pending record and announces its
    position: the index in the answer is the number of tasks there were,
    the record at that index is the new one, the earlier records and the
    rest of the state are untouched, and an update at the announced index
    right after succeeds, whatever the status. *)
Theorem todo_add_announces_its_position
    (w : world) (input : tool_input) (t : pystr) :
  in_task input = Some t ->
  let k := len (todos w) in
  exists w',
    execute (py "todo_add") input w
    = Ok (py "Added task " ++ str_int k ++ py ": " ++ t) w'
    /\ todos w' = todos w ++ [Todo t (py "pending")]
    /\ todos w' !! Z.to_nat k = Some (Todo t (py "pending"))
    /\ fs w' = fs w /\ subagents w' = subagents w /\ exchanges w' = exchanges w
    /\ forall s,
        execute (py "todo_update") (todo_update_input k s) w'
        = Ok (py "Updated task " ++ str_int k ++ py " to " ++ s)
             (with_todos w' (todos w ++ [Todo t s])).
Proof.
  intros Ht k. rewrite (todo_add_unfold w input t Ht).
  assert (Hk : len (todos w ++ [Todo t (py "pending")]) - 1 = k).
  { unfold k, len. rewrite length_app. cbn [length]. lia. }
  assert (Hnat : Z.to_nat k = length (todos w)) by (unfold k, len; lia).
  rewrite Hk. eexists. split; [done|]. split_and!; try done.
  - simpl. rewrite Hnat. by rewrite lookup_app_r, Nat.sub_diag.
  - intros s. rewrite (todo_update_unfold _ (todo_update_input k s) k s eq_refl eq_refl).
    cbn [todos with_todos].
    assert (Hlen : len (todos w ++ [Todo t (py "pending")]) = k + 1)
      by (unfold k, len; rewrite length_app; cbn [length]; lia).
    rewrite Hlen.
    destruct (Z.ltb_spec k 0); [unfold k, len in *; lia|].
    destruct (Z.leb_spec (k + 1) k); [lia|]. simpl.
    do 2 f_equal. rewrite Hnat.
    replace (length (todos w)) with (length (todos w) + 0)%nat at 1 by lia.
    by rewrite alter_app_r.
Qed.


(** [X12] The status line follows the updates. After an update at a
    valid position [print_status] prints the line "  Todos: d/n", where
    n is the number of tasks, unchanged, and d the number of tasks then
    marked "done", followed, when there are subagents, by
    " | Subagents: k (r running)"; d is what it was before the update,
    one more when the record becomes "done" and one less when it ceases
    to be. The line is left out exactly when there is neither a task nor
    a subagent. *)
Theorem print_status_follows_updates
    (w : world) (input : tool_input) (i : Z) (s : pystr) (t : todo) :
  in_index input = Some i ->
  in_status input = Some s ->
  0 <= i ->
  todos w !! Z.to_nat i = Some t ->
  let w' := world_of (execute (py "todo_update") input w) in
  let d := length (filter (fun t => status t = py "done") (todos w)) in
  let d' := length (filter (fun t => status t = py "done") (todos w')) in
  let r := length (filter (fun a => sa_status a = py "running") (subagents w)) in
  print_status w'
  = Some (py "  Todos: " ++ str_int (Z.of_nat d') ++ py "/" ++ str_int (len (todos w))
          ++ match subagents w with
             | [] => []
             | _ :: _ =>
                 py " | Subagents: " ++ str_int (len (subagents w))
                 ++ py " (" ++ str_int (Z.of_nat r) ++ py " running)"
             end)
  /\ (d' + (if bool_decide (status t = py "done") then 1 else 0)
      = d + (if bool_decide (s = py "done") then 1 else 0))%nat
  /\ (d' <= length (todos w))%nat
  /\ (forall w0, print_status w0 = None <-> todos w0 = [] /\ subagents w0 = []).
Proof.
  intros Hi Hs H0 Ht w' d d' r. subst w' d d' r.
  assert (Hlt : (Z.to_nat i < length (todos w))%nat) by by eapply lookup_lt_Some.
  rewrite (todo_update_unfold w input i s Hi Hs). unfold len.
  destruct (Z.ltb_spec i 0); [lia|].
  destruct (Z.leb_spec (Z.of_nat (length (todos w))) i); [lia|].
  cbn [orb world_of with_todos todos subagents].
  set (l' := alter (fun t0 => Todo (task t0) s) (Z.to_nat i) (todos w)).
  assert (Hlen : length l' = length (todos w)) by apply length_alter.
  split_and!.
  - unfold print_status, len, done_count, running_count.
    change (todos (with_todos w l')) with l'.
    change (subagents (with_todos w l')) with (subagents w). rewrite Hlen.
    destruct l' as [|t0 l0] eqn:El'; [simpl in Hlen; lia|]. rewrite <- El'.
    change (py "  Todos: ") with (py "  " ++ py "Todos: ").
    change (py " | Subagents: ") with (py " | " ++ py "Subagents: ").
    destruct (subagents w) as [|a l1] eqn:Es; cbn [app str_join].
    + by rewrite app_nil_r, <- !app_assoc.
    + rewrite <- Es. by rewrite <- !app_assoc.
  - apply (done_count_alter s (Z.to_nat i) (todos w) t Ht).
  - rewrite <- Hlen. apply length_filter.
  - intros w0. unfold print_status. destruct (todos w0), (subagents w0); simpl;
      split; try done; by intros [? ?].
Qed.
End MoreTodos.

Lemma todo_add_announces_its_position_witness :
  in_task (todo_add_input (py "ship it")) = Some (py "ship it")
  /\ exists w',
      @execute quiet (py "todo_add") (todo_add_input (py "ship it")) planning_world
      = Ok (py "Added task 1: ship it") w'
      /\ todos w' = todos planning_world ++ [Todo (py "ship it") (py "pending")].
Proof.
  split; [reflexivity|].
  destruct (@todo_add_announces_its_position quiet planning_world
              (todo_add_input (py "ship it")) (py "ship it") eq_refl)
    as (w' & Hrun & Htodos & _).
  exists w'. split; [exact Hrun|exact Htodos].
Defined.

Lemma print_status_follows_updates_witness :
  todos planning_world !! Z.to_nat 0 = Some (Todo (py "write tests") (py "pending"))
  /\ print_status (world_of (@execute quiet (py "todo_update")
                               (todo_update_input 0 (py "done")) planning_world))
     = Some (py "  Todos: 1/1").
Proof.
  split; [reflexivity|].
  destruct (@print_status_follows_updates quiet planning_world
              (todo_update_input 0 (py "done")) 0 (py "done")
              (Todo (py "write tests") (py "pending"))
              eq_refl eq_refl ltac:(lia) eq_refl)
    as (Hline & _).
  rewrite Hline. vm_compute. reflexivity.
Defined.

(** * The file-write and file-read handlers *)

(** The UTF-8 encoding takes one byte per character exactly on ASCII text. *)
Lemma utf8_length_ge (s : pystr) : (length s ≤ utf8_length s)%nat.
Proof.
  induction s as [|c s IH]; simpl; [lia|].
  unfold utf8_width. repeat case_match; lia.
Qed.

Lemma utf8_length_ascii (s : pystr) :
  utf8_length s = length s <-> Forall (fun c => (c < 128)%N) s.
Proof.
  induction s as [|c s IH]; simpl.
  - split; [by constructor|done].
  - pose proof (utf8_length_ge s) as Hge. rewrite Forall_cons, <- IH.
    unfold utf8_width. destruct (N.ltb_spec c 128).
    + split; [intros; split; [done|lia]|intros [_ ?]; lia].
    + split; [repeat case_match; lia|intros [? _]; lia].
  Qed.

(** [dirname] of a path without a separator, and of one with. *)
Lemma after_last_absent {A} `{EqDecision A} (c : A) (s : list A) :
  c ∉ s -> after_last c s = 0%nat.
Proof.
  induction s as [|x s IH]; [done|].
  intros [Hx Hs]%not_elem_of_cons. cbn [after_last]. rewrite (IH Hs).
  by rewrite bool_decide_eq_false_2 by done.
Qed.

Lemma after_last_app {A} `{EqDecision A} (c : A) (s f : list A) :
  c ∉ f -> after_last c (s ++ c :: f) = S (length s).
Proof.
  intros Hf. induction s as [|x s IH].
  - cbn [app after_last length]. rewrite (after_last_absent c f Hf).
    by rewrite bool_decide_eq_true_2.
  - cbn [app after_last length]. by rewrite IH.
Qed.

Lemma dirname_bare (p : pystr) : sep ∉ p -> dirname p = [].
Proof.
  intros Hp. unfold dirname, path_split. by rewrite (after_last_absent sep p Hp).
Qed.

Lemma dirname_join (d f : pystr) (c : N) :
  last d = Some c -> c ≠ sep -> sep ∉ f -> dirname (d ++ sep :: f) = d.
Proof.
  intros Hlast Hc Hf. unfold dirname, path_split.
  rewrite (after_last_app sep d f Hf).
  assert (Htake : take (S (length d)) (d ++ sep :: f) = d ++ [sep]).
  { rewrite take_app_ge by lia.
    replace (S (length d) - length d)%nat with 1%nat by lia. done. }
  rewrite Htake. cbn [fst].
  assert (Hd : exists d', d = d' ++ [c]).
  { destruct (last_is_Some d) as [Hsome _]. 
    apply last_Some in Hlast as [d' ->]. by exists d'. }
  destruct Hd as [d' ->].
  rewrite bool_decide_eq_true_2 by (by destruct d').
  assert (Hnot : forallb (fun x => bool_decide (x = sep)) ((d' ++ [c]) ++ [sep]) = false).
  { rewrite !forallb_app. cbn [forallb].
    rewrite (bool_decide_eq_false_2 (c = sep)) by done.
    by rewrite !andb_false_r. }
  rewrite Hnot. cbn [negb andb].
  unfold rstrip. rewrite !reverse_app, !reverse_singleton. cbn [app lstrip].
  rewrite bool_decide_eq_true_2 by done.
  rewrite (bool_decide_eq_false_2 (c = sep)) by done.
  by rewrite reverse_cons, reverse_involutive.
Qed.

Section Write.
Context {E : Env}.

(** The write handler, step by step. *)
Lemma write_unfold (w : world) (input : tool_input) (path content : pystr) :
  in_path input = Some path ->
  in_content input = Some content ->
  execute_basic (py "write") input w =
    match os_makedirs (str_or (dirname path) (py ".")) (fs w) with
    | (Some e, f) => Ok (Some (py "Error writing file: " ++ str_exn e)) (with_fs w f)
    | (None, f) =>
        match os_write path content f with
        | Some (e, f') =>
            Ok (Some (py "Error writing file: " ++ str_exn e)) (with_fs w f')
        | None =>
            Ok (Some (py "Successfully wrote " ++ str_int (len content)
                      ++ py " bytes to " ++ path))
               (with_fs w (FileSystem (<[path := content]> (files f)) (dirs f)))
        end
    end.
Proof.
  intros Hp Hc. unfold execute_basic. dispatch.
  rewrite Hp, Hc. unfold getitem, bind at 1 2, ret at 1 2, try_except.
  unfold bind at 1, makedirs.
  destruct (os_makedirs _ (fs w)) as [[e|] f]; [done|].
  unfold bind, open_write. cbn [fs with_fs].
  by destruct (os_write path content f) as [[e f']|].
Qed.

(** A successful write stores [content] as the text of [path] and reports
    [len(content)], the number of characters of [content]. *)
Lemma write_success (w w' : world) (input : tool_input)
    (path content r : pystr) :
  in_path input = Some path ->
  in_content input = Some content ->
  execute_basic (py "write") input w = Ok (Some r) w' ->
  startswith (py "Successfully wrote ") r = true ->
  r = py "Successfully wrote " ++ str_int (len content) ++ py " bytes to " ++ path
  /\ files (fs w') !! path = Some content.
Proof.
  intros Hp Hc. rewrite (write_unfold w input path content Hp Hc).
  destruct (os_makedirs _ (fs w)) as [[e|] f].
  - intros [= <- <-] Hs. by vm_compute in Hs.
  - destruct (os_write path content f) as [[e f']|].
    + intros [= <- <-] Hs. by vm_compute in Hs.
    + intros [= <- <-] _. split; [done|]. cbn [fs with_fs files].
      apply lookup_insert_eq.
Qed.

(** [C8] The number in the success message is [len(content)], a count of
    characters, while the file receives the encoding of [content]: for
    the one-character text U+00E9 the handler creates [/tmp], stores the
    text and reports "1 bytes", and the file holds the two bytes of its
    UTF-8 encoding. *)
Theorem write_reports_characters_as_bytes :
  let path := py "/tmp/out.txt" in
  let content : pystr := [233%N] in
  let outcome := @execute_basic quiet (py "write") (write_input path content) empty_world in
  result_of outcome = Some (Some (py "Successfully wrote 1 bytes to /tmp/out.txt"))
  /\ isdir (fs (world_of outcome)) (py "/tmp") = true
  /\ files (fs (world_of outcome)) !! path = Some content
  /\ utf8_length content = 2%nat.
Proof. vm_compute. done. Qed.

(** [X4] For a content of ASCII characters the number in the success
    message of a write is the number of bytes the file receives. *)
Theorem write_ascii_reports_bytes
    (w w' : world) (input : tool_input) (path content r : pystr) :
  in_path input = Some path ->
  in_content input = Some content ->
  Forall (fun c => (c < 128)%N) content ->
  execute_basic (py "write") input w = Ok (Some r) w' ->
  startswith (py "Successfully wrote ") r = true ->
  r = py "Successfully wrote " ++ str_int (Z.of_nat (utf8_length content))
      ++ py " bytes to " ++ path
  /\ utf8_length <$> files (fs w') !! path = Some (utf8_length content).
Proof.
  intros Hp Hc Hascii Hw Hs.
  destruct (write_success w w' input path content r Hp Hc Hw Hs) as [-> Hf].
  apply utf8_length_ascii in Hascii. rewrite Hf. cbn [fmap option_fmap option_map].
  by rewrite !Hascii.
Qed.

(** [X2] The write handler never raises once it has its two keys. It
    first makes the directory of the path: the path up to its last
    separator, or "." for a path without one. When that fails the file
    is not touched and the answer is the text of the exception after
    "Error writing file: "; otherwise the content is written as given,
    and the answer is the success message when the write goes through
    and the error of the failed write when it does not. *)
Theorem write_makes_the_directory_first
    (w : world) (input : tool_input) (path content : pystr) :
  in_path input = Some path ->
  in_content input = Some content ->
  execute_basic (py "write") input w =
    match os_makedirs (match dirname path with [] => py "." | d => d end) (fs w) with
    | (Some e, f) => Ok (Some (py "Error writing file: " ++ str_exn e)) (with_fs w f)
    | (None, f) =>
        match os_write path content f with
        | Some (e, f') =>
            Ok (Some (py "Error writing file: " ++ str_exn e)) (with_fs w f')
        | None =>
            Ok (Some (py "Successfully wrote " ++ str_int (len content)
                      ++ py " bytes to " ++ path))
               (with_fs w (FileSystem (<[path := content]> (files f)) (dirs f)))
        end
    end
  /\ (sep ∉ path -> dirname path = [])
  /\ (forall d f c, path = d ++ sep :: f -> last d = Some c -> c ≠ sep -> sep ∉ f ->
        dirname path = d).
Proof.
  intros Hp Hc. split_and!.
  - rewrite (write_unfold w input path content Hp Hc). unfold str_or.
    by destruct (dirname path).
  - apply dirname_bare.
  - intros d f c -> Hl Hne Hf. by apply (dirname_join d f c).
Qed.

(** [X1] Given its path, the read handler never raises and never changes
    the state: it answers the text that reading returned, the literal
    "(empty file)" when that text is empty, the not-found error when
    [open] raised [FileNotFoundError], and the text of the exception
    after "Error reading file: " for any other exception. *)
Theorem read_gives_text_or_error (w : world) (input : tool_input) (path : pystr) :
  in_path input = Some path ->
  execute_basic (py "read") input w
  = Ok (Some match os_read path (fs w) with
             | inr [] => py "(empty file)"
             | inr text => text
             | inl (FileNotFoundError _) => py "Error: File not found: " ++ path
             | inl e => py "Error reading file: " ++ str_exn e
             end) w.
Proof.
  intros Hp. unfold execute_basic. dispatch. rewrite Hp.
  unfold getitem, bind at 1, ret at 1, try_except, bind, open_read.
  destruct (os_read path (fs w)) as [e|[|c text]]; [|done..].
  by destruct e.
Qed.
End Write.

Lemma write_ascii_reports_bytes_witness :
  Forall (fun c => (c < 128)%N) (py "hello")
  /\ utf8_length
     <$> files (fs (world_of (@execute_basic quiet (py "write")
                                (write_input (py "/tmp/out.txt") (py "hello"))
                                empty_world))) !! py "/tmp/out.txt"
     = Some (utf8_length (py "hello")).
Proof.
  assert (Hascii : Forall (fun c => (c < 128)%N) (py "hello"))
    by (vm_compute; repeat constructor).
  split; [exact Hascii|].
  apply (@write_ascii_reports_bytes quiet empty_world _
           (write_input (py "/tmp/out.txt") (py "hello"))
           (py "/tmp/out.txt") (py "hello")
           (py "Successfully wrote 5 bytes to /tmp/out.txt")
           eq_refl eq_refl Hascii).
  - vm_compute. reflexivity.
  - vm_compute. reflexivity.
Defined.

Lemma write_makes_the_directory_first_witness :
  in_path (write_input (py "out.txt") (py "hello")) = Some (py "out.txt")
  /\ in_content (write_input (py "out.txt") (py "hello")) = Some (py "hello")
  /\ @execute_basic quiet (py "write") (write_input (py "out.txt") (py "hello"))
       notes_world
     = Ok (Some (py "Successfully wrote 5 bytes to out.txt"))
          (World (FileSystem {[py "notes.txt" := py "hello world";
                               py "out.txt" := py "hello"]} {[py "."]}) [] [] []).
Proof.
  split; [reflexivity|]. split; [reflexivity|].
  destruct (@write_makes_the_directory_first quiet notes_world
              (write_input (py "out.txt") (py "hello"))
              (py "out.txt") (py "hello") eq_refl eq_refl) as (Hrun & _).
  rewrite Hrun. vm_compute. reflexivity.
Defined.

Lemma read_gives_text_or_error_witness :
  in_path (read_input (py "notes.txt")) = Some (py "notes.txt")
  /\ @execute_basic quiet (py "read") (read_input (py "notes.txt")) notes_world
     = Ok (Some (py "hello world")) notes_world.
Proof.
  split; [reflexivity|].
  rewrite (@read_gives_text_or_error quiet notes_world
             (read_input (py "notes.txt")) (py "notes.txt") eq_refl).
  vm_compute. reflexivity.
Defined.

(** * The block loops *)

Section Blocks.
Context {E : Env}.


(** The results of [execute_each] carry, in order, the identifiers of the
    invocations. *)
Lemma execute_each_ids run calls w rs w' :
  execute_each run calls w = Ok rs w' ->
  tool_use_id <$> rs = (fun c => c.1.1) <$> calls.
Proof.
  revert w rs w'. induction calls as [|[[id n] i] calls IH]; intros w rs w' Hrun.
  - by injection Hrun as <- <-.
  - simpl in Hrun. apply bind_Ok in Hrun as (r & w1 & _ & Hrun).
    apply bind_Ok in Hrun as (rs' & w2 & Hrest & Hrun).
    injection Hrun as <- <-. simpl. f_equal. by eapply IH.
Qed.

(** The loop of [run_subagent] over the blocks of a response copies every
    block and executes every tool invocation, in order. *)
Lemma subagent_blocks_each blocks assistant_content tool_results w :
  subagent_blocks blocks assistant_content tool_results w =
    (rs <- execute_each execute_delegated (tool_uses blocks) ;;
     ret (assistant_content ++ blocks, tool_results ++ rs)) w.
Proof.
  revert assistant_content tool_results w.
  induction blocks as [|b blocks IH]; intros a r w.
  - simpl. unfold bind, ret. by rewrite !app_nil_r.
  - destruct b as [t|id n i]; simpl; unfold execute_delegated, bind, ret in *.
    + rewrite IH. by rewrite <- app_assoc.
    + destruct (execute_basic n i w) as [r0 w1|e w1]; [|done].
      rewrite IH. destruct (execute_each _ _ w1) as [rs w2|e w2]; [|done].
      by rewrite <- !app_assoc.
Qed.

(** The loop of [agent] does the same with [execute]. *)
Lemma agent_blocks_each blocks assistant_content tool_results w :
  agent_blocks blocks assistant_content tool_results w =
    (rs <- execute_each execute (tool_uses blocks) ;;
     ret (assistant_content ++ blocks, tool_results ++ rs)) w.
Proof.
  revert assistant_content tool_results w.
  induction blocks as [|b blocks IH]; intros a r w.
  - simpl. unfold bind, ret. by rewrite !app_nil_r.
  - destruct b as [t|id n i]; simpl; unfold bind, ret in *.
    + rewrite IH. by rewrite <- app_assoc.
    + destruct (execute n i w) as [r0 w1|e w1]; [|done].
      rewrite IH. destruct (execute_each _ _ w1) as [rs w2|e w2]; [|done].
      by rewrite <- !app_assoc.
Qed.
End Blocks.

(** * What the shared handlers touch, and when they return *)

Lemma with_fs_same w : with_fs w (fs w) = w.
Proof. by destruct w. Qed.


Lemma fs_only_ret {A} (a : A) : fs_only (ret a).
Proof. intros w. exists (fs w). by rewrite with_fs_same. Qed.

Lemma fs_only_raise {A} e : fs_only (@raise A e).
Proof. intros w. exists (fs w). by rewrite with_fs_same. Qed.

Lemma fs_only_bind {A B} (m : M A) (k : A -> M B) :
  fs_only m -> (forall a, fs_only (k a)) -> fs_only (bind m k).
Proof.
  intros Hm Hk w. destruct (Hm w) as [f Hf]. unfold bind.
  destruct (m w) as [a w1|e w1]; simpl in Hf; subst w1.
  - destruct (Hk a (with_fs w f)) as [f' Hf']. exists f'. by rewrite Hf'.
  - by exists f.
Qed.

Lemma fs_only_try_except {A} (body : M A) (handler : exn -> M A) :
  fs_only body -> (forall e, fs_only (handler e)) -> fs_only (try_except body handler).
Proof.
  intros Hm Hk w. destruct (Hm w) as [f Hf]. unfold try_except.
  destruct (body w) as [a w1|e w1]; simpl in Hf; subst w1.
  - by exists f.
  - destruct (Hk e (with_fs w f)) as [f' Hf']. exists f'. by rewrite Hf'.
Qed.

Lemma fs_only_getitem {A} (field : option A) key : fs_only (getitem field key).
Proof. destruct field; [apply fs_only_ret|apply fs_only_raise]. Qed.

Create HintDb fs_only.
#[export] Hint Resolve fs_only_ret fs_only_raise fs_only_getitem : fs_only.

(** Breaks a computation into its steps, each closed by a hint. *)
Ltac fs_only_steps :=
  repeat first
    [ solve [auto with fs_only]
    | apply fs_only_bind; [|intros ?]
    | apply fs_only_try_except; [|intros ?]
    | case_match ].

Lemma succeeds_ret {A} (a : A) : succeeds (ret a).
Proof. intros w. by exists a, w. Qed.

Lemma succeeds_try_except {A} (body : M A) (handler : exn -> M A) :
  (forall e, succeeds (handler e)) -> succeeds (try_except body handler).
Proof.
  intros Hh w. unfold try_except. destruct (body w) as [a w'|e w']; [eauto|apply Hh].
Qed.

Section Basic.
Context {E : Env}.

Lemma fs_only_run_command command timeout : fs_only (run_command command timeout).
Proof.
  intros w. unfold run_command.
  destruct (subprocess_run command timeout (fs w)) as [[e|out] f]; by exists f.
Qed.

Lemma fs_only_open_read path : fs_only (open_read path).
Proof.
  intros w. unfold open_read. exists (fs w). rewrite with_fs_same.
  by destruct (os_read path (fs w)).
Qed.

Lemma fs_only_makedirs name : fs_only (makedirs name).
Proof.
  intros w. unfold makedirs.
  destruct (os_makedirs name (fs w)) as [[e|] f]; by exists f.
Qed.

Lemma fs_only_open_write path text : fs_only (open_write path text).
Proof.
  intros w. unfold open_write.
  destruct (os_write path text (fs w)) as [[e f]|]; by eexists.
Qed.

(** [execute_basic] changes nothing but the file system. *)
Lemma fs_only_execute_basic tool_name input : fs_only (execute_basic tool_name input).
Proof.
  pose proof fs_only_run_command. pose proof fs_only_open_read.
  pose proof fs_only_makedirs. pose proof fs_only_open_write.
  unfold execute_basic. fs_only_steps.
Qed.

Lemma fs_only_execute_delegated tool_name input :
  fs_only (execute_delegated tool_name input).
Proof.
  pose proof fs_only_execute_basic. unfold execute_delegated. fs_only_steps.
Qed.

Lemma fs_only_execute_each calls : fs_only (execute_each execute_delegated calls).
Proof.
  pose proof fs_only_execute_delegated.
  induction calls as [|[[id n] i] calls IH]; simpl; fs_only_steps.
Qed.

(** With the keys its schema requires, a shared handler returns: every
    exception of the file system and of the shell is turned into text. *)
Lemma succeeds_execute_basic id tool_name input :
  block_conforms (ToolUseBlock id tool_name input) = true ->
  succeeds (execute_basic tool_name input).
Proof.
  intros Hc. unfold execute_basic.
  destruct input as [command path text old new task index status description].
  repeat case_bool_decide; subst; try apply succeeds_ret; vm_compute in Hc; simpl.
  - apply succeeds_try_except. intros []; apply succeeds_ret.
  - destruct path; [|done].
    apply succeeds_try_except. intros []; apply succeeds_ret.
  - destruct path; [|done]. destruct text; [|done].
    apply succeeds_try_except. intros []; apply succeeds_ret.
  - destruct path; [|done]. destruct old; [|done]. destruct new; [|done].
    apply succeeds_try_except. intros []; apply succeeds_ret.
Qed.
End Basic.

(** * The delegated loop *)

Lemma try_except_raises {A} (body : M A) (handler : exn -> M A) w e w' :
  (forall e, succeeds (handler e)) ->
  try_except body handler w = Raise e w' -> False.
Proof.
  intros Hh Hr. destruct (succeeds_try_except body handler Hh w) as (a & w1 & Ha).
  congruence.
Qed.

Section Delegated.
Context {E : Env}.

(** The only exception that leaves a shared handler is the [KeyError] of a
    missing key. *)
Lemma execute_basic_raises tool_name input w e w' :
  execute_basic tool_name input w = Raise e w' ->
  exists key, e = KeyError key.
Proof.
  unfold execute_basic.
  destruct input as [command path text old new task index status description].
  repeat case_bool_decide; simpl; try done.
  - intros Hr. exfalso. revert Hr. apply try_except_raises.
    intros []; apply succeeds_ret.
  - destruct path; simpl; [|intros [= <- _]; eauto].
    intros Hr. exfalso. revert Hr. apply try_except_raises.
    intros []; apply succeeds_ret.
  - destruct path; simpl; [|intros [= <- _]; eauto].
    destruct text; simpl; [|intros [= <- _]; eauto].
    intros Hr. exfalso. revert Hr. apply try_except_raises.
    intros []; apply succeeds_ret.
  - destruct path; simpl; [|intros [= <- _]; eauto].
    destruct old; simpl; [|intros [= <- _]; eauto].
    destruct new; simpl; [|intros [= <- _]; eauto].
    intros Hr. exfalso. revert Hr. apply try_except_raises.
    intros []; apply succeeds_ret.
Qed.

Lemma execute_delegated_eq tool_name input w :
  execute_delegated tool_name input w =
    match execute_basic tool_name input w with
    | Ok r w1 =>
        Ok (match r with
            | None => py "Unknown tool: " ++ tool_name
            | Some s => s
            end) w1
    | Raise e w1 => Raise e w1
    end.
Proof. done. Qed.

Lemma execute_each_delegated_raises calls w e w' :
  execute_each execute_delegated calls w = Raise e w' ->
  exists key, e = KeyError key.
Proof.
  revert w. induction calls as [|[[id n] i] calls IH]; intros w; simpl; [done|].
  unfold bind. rewrite execute_delegated_eq.
  destruct (execute_basic n i w) as [r w1|e1 w1] eqn:Hb.
  - specialize (IH w1).
    destruct (execute_each _ calls w1) as [rs w2|e2 w2]; [done|exact IH].
  - intros [= <- _]. by eapply execute_basic_raises.
Qed.

(** Under conformance the delegated executor returns on every block list
    of a response. *)
Lemma succeeds_execute_each_delegated blocks :
  forallb block_conforms blocks = true ->
  succeeds (execute_each execute_delegated (tool_uses blocks)).
Proof.
  induction blocks as [|b blocks IH]; simpl; [intros _; apply succeeds_ret|].
  intros [Hb Hbs]%andb_true_iff. specialize (IH Hbs).
  destruct b as [t|id n i]; [exact IH|].
  change (tool_uses (ToolUseBlock id n i :: blocks))
    with ((id, n, i) :: tool_uses blocks).
  intros w. cbn [execute_each]. unfold bind. rewrite execute_delegated_eq.
  destruct (succeeds_execute_basic id n i Hb w) as (r & w1 & ->).
  destruct (IH w1) as (rs & w2 & ->). by eexists _, _.
Qed.

(** One turn of the delegated loop, step by step. *)
Lemma subagent_turn_unfold id turn messages w :
  subagent_turn id turn messages w =
    let req := request_of SUBAGENT_SYSTEM subagent_tools messages in
    let resp := messages_create (exchanges w) req in
    let w1 := World (fs w) (todos w)
                (alter (set_sa_turns (Z.of_nat turn + 1)) id (subagents w))
                (exchanges w ++ [Exchange req resp]) in
    match execute_each execute_delegated (tool_uses (content resp)) w1 with
    | Ok rs w2 =>
        if bool_decide (stop_reason resp ≠ py "tool_use") then
          Ok (Return (final_text (content resp))
                (messages ++ [assistant_message (content resp)]))
             (with_subagents w2 (alter (set_sa_status (py "done")) id (subagents w2)))
        else
          Ok (Continue (messages ++ [assistant_message (content resp); user_results rs]))
             w2
    | Raise e w2 => Raise e w2
    end.
Proof.
  unfold subagent_turn, set_turns, set_status, create,
    get_subagents, set_subagents, with_subagents, bind, ret.
  simpl. rewrite subagent_blocks_each. unfold bind, ret. simpl.
  destruct (execute_each _ _ _) as [rs w2|e w2]; [|done].
  case_bool_decide; [done|]. by rewrite <- app_assoc.
Qed.

Lemma subagent_loop_cons id turn rest messages w :
  subagent_loop id (turn :: rest) messages w =
    match subagent_turn id turn messages w with
    | Ok (Continue messages') w' => subagent_loop id rest messages' w'
    | Ok (Return text messages') w' => Ok (text, messages') w'
    | Raise e w' => Raise e w'
    end.
Proof.
  cbn [subagent_loop]. unfold bind.
  by destruct (subagent_turn id turn messages w) as [[]|].
Qed.

(** The loop of [run_subagent], whatever the service answers. *)
Lemma subagent_loop_run id k n messages w :
  (id < length (subagents w))%nat ->
  let o := subagent_loop id (seq k n) messages w in
  exists new,
    delegated_run id k n messages w (world_of o) new
    /\ delegated_end id n w (world_of o) new o.
Proof.
  revert k messages w. induction n as [|n IH]; intros k messages w Hid.
  - (* no turn left *)
    destruct (lookup_lt_is_Some_2 _ _ Hid) as [r Hr].
    exists []. simpl. split.
    + constructor; simpl;
        [ by rewrite app_nil_r | done | lia | done | done | done | done
        | by rewrite length_alter
        | intros j Hj; by rewrite list_lookup_alter_ne
        | by rewrite list_lookup_alter_eq, Hr
        | by rewrite list_lookup_alter_eq, Hr ].
    + right. split_and!; try done.
      by rewrite list_lookup_alter_eq, Hr.
  - (* one turn, then the rest *)
    cbn [seq]. cbv zeta. rewrite subagent_loop_cons, subagent_turn_unfold.
    cbv zeta.
    set (req := request_of SUBAGENT_SYSTEM subagent_tools messages).
    set (resp := messages_create (exchanges w) req).
    set (w1 := World (fs w) (todos w) (alter _ id (subagents w)) (exchanges w ++ _)).
    destruct (lookup_lt_is_Some_2 _ _ Hid) as [r Hr].
    assert (Hone : forall i x, [Exchange req resp] !! i = Some x ->
              ex_response x
              = messages_create (exchanges w ++ take i [Exchange req resp]) (ex_request x)).
    { intros [|i] x; simpl; [|done]. intros [= <-]. by rewrite app_nil_r. }
    destruct (fs_only_execute_each (tool_uses (content resp)) w1) as [f Hf].
    destruct (execute_each _ _ w1) as [rs w2|e w2] eqn:Hrun; simpl in Hf; subst w2.
    + case_bool_decide as Hstop.
      * (* a final response *)
        exists [Exchange req resp]. simpl. split.
        -- constructor; simpl;
             [ done | lia | done | exact Hone | by repeat econstructor
             | by split; [|left] | done
             | by rewrite !length_alter
             | intros j Hj; by rewrite !list_lookup_alter_ne
             | by rewrite !list_lookup_alter_eq, Hr
             | rewrite !list_lookup_alter_eq, Hr; simpl; f_equal; unfold len; simpl; lia ].
        -- left. exists [], (Exchange req resp). split_and!; try done.
           by rewrite !list_lookup_alter_eq, Hr.
      * (* tools were asked for: the loop goes on *)
        set (w2 := with_fs w1 f).
        assert (Hid2 : (id < length (subagents w2))%nat)
          by (simpl; by rewrite length_alter).
        destruct (IH (S k)
                    (messages ++ [assistant_message (content resp); user_results rs])
                    w2 Hid2) as (new & Hrun' & Hend).
        set (o := subagent_loop id (seq (S k) n) _ w2) in *. clearbody o.
        destruct Hrun' as [Hex Hcalls _ Hgen Hreq Hchain Htodos Hlen Hoth Htask Hturns].
        assert (Hwants : wants_tools resp).
        { unfold wants_tools. by destruct (decide (stop_reason resp = py "tool_use")). }
        exists (Exchange req resp :: new). split.
        -- constructor; simpl.
           ++ rewrite Hex. simpl. by rewrite <- app_assoc.
           ++ lia.
           ++ done.
           ++ intros [|i] x; simpl.
              ** intros [= <-]. by rewrite app_nil_r.
              ** intros Hx. rewrite (Hgen i x Hx). simpl.
                 by rewrite <- app_assoc.
           ++ constructor; [by eexists|done].
           ++ split; [done|]. right. exists rs. split; [|done].
              apply (execute_each_ids _ _ _ _ _ Hrun).
           ++ by rewrite Htodos.
           ++ rewrite Hlen. simpl. by rewrite length_alter.
           ++ intros j Hj. rewrite (Hoth j Hj). simpl. by rewrite list_lookup_alter_ne.
           ++ rewrite Htask. simpl. by rewrite list_lookup_alter_eq, Hr.
           ++ rewrite Hturns. destruct new as [|x new]; simpl.
              ** rewrite list_lookup_alter_eq, Hr; simpl; f_equal; unfold len; simpl; lia.
              ** f_equal; unfold len; simpl; lia.
        -- unfold delegated_end in *. destruct o as [[text messages'] w3|e w3]; simpl in *.
           ++ destruct Hend as [(earlier & last & -> & He & Hl & Hs & Ht)
                               |(Hn & Hall & Hs & Ht)].
              ** left. exists (Exchange req resp :: earlier), last.
                 split_and!; try done. by constructor.
              ** right. split_and!; try done; [by rewrite Hn|by constructor].
           ++ destruct Hend as (Hkey & Hall & Hs). split_and!; [done| |].
              ** destruct new as [|x new]; [done|]. by constructor.
              ** rewrite Hs. simpl. by rewrite list_lookup_alter_eq, Hr.
    + (* a handler raised *)
      exists [Exchange req resp]. simpl. split.
      * constructor; simpl;
          [ done | lia | done | exact Hone | by repeat econstructor
          | by split; [|left] | done
          | by rewrite length_alter
          | intros j Hj; by rewrite list_lookup_alter_ne
          | by rewrite list_lookup_alter_eq, Hr
          | rewrite list_lookup_alter_eq, Hr; simpl; f_equal; unfold len; simpl; lia ].
      * split_and!; [by eapply execute_each_delegated_raises|done|].
        by rewrite list_lookup_alter_eq, Hr.
Qed.
End Delegated.

(** * [run_subagent] *)

(** What both loops return on a final response is the text of its text
    blocks, in order, put end to end. *)
Lemma final_text_joined (blocks : list block) :
  final_text blocks = joined_text blocks.
Proof.
  unfold final_text, joined_text.
  induction blocks as [|[t|id n i] blocks IH]; [done| |].
  - cbn [flat_map omap list_omap concat]. by rewrite IH.
  - cbn [flat_map omap list_omap app]. exact IH.
Qed.

Section RunSubagent.
Context {E : Env}.

Lemma succeeds_subagent_loop id turns messages :
  conforming E -> succeeds (subagent_loop id turns messages).
Proof.
  intros Hc. revert messages.
  induction turns as [|turn turns IH]; intros messages w.
  - by eexists _, _.
  - rewrite subagent_loop_cons, subagent_turn_unfold. cbv zeta.
    set (resp := messages_create _ _).
    destruct (succeeds_execute_each_delegated (content resp) (Hc _ _)
                (World (fs w) (todos w)
                   (alter (set_sa_turns (Z.of_nat turn + 1)) id (subagents w))
                   (exchanges w ++ [Exchange (request_of SUBAGENT_SYSTEM subagent_tools messages) resp])))
      as (rs & w2 & ->).
    case_bool_decide; [by eexists _, _|apply IH].
Qed.

(** [run_subagent] is its loop, started on a fresh record and on the task
    description alone. *)
Lemma run_subagent_unfold description w :
  run_subagent description w =
    match subagent_loop (length (subagents w)) (seq 0 max_turns)
            [user_text description]
            (with_subagents w
               (subagents w ++ [Subagent description (py "running") 0])) with
    | Ok r w' => Ok r.1 w'
    | Raise e w' => Raise e w'
    end.
Proof. done. Qed.

(** The trace of a whole delegated run. *)
Lemma run_subagent_run description w :
  let w0 := with_subagents w (subagents w ++ [Subagent description (py "running") 0]) in
  let o := subagent_loop (length (subagents w)) (seq 0 max_turns)
             [user_text description] w0 in
  world_of (run_subagent description w) = world_of o
  /\ exists new,
      delegated_run (length (subagents w)) 0 max_turns [user_text description]
        w0 (world_of o) new
      /\ delegated_end (length (subagents w)) max_turns w0 (world_of o) new o.
Proof.
  intros w0 o. split.
  - rewrite run_subagent_unfold. fold w0 o. by destruct o.
  - apply subagent_loop_run. subst w0. simpl. rewrite length_app. simpl. lia.
Qed.

End RunSubagent.

Lemma relentless_conforming : conforming relentless.
Proof. intros log req. reflexivity. Qed.





(** * Delegation *)

Section Delegation.
Context {E : Env}.

Lemma chain_head messages x rest :
  chain messages (x :: rest) -> req_messages (ex_request x) = messages.
Proof. by intros [? _]. Qed.

(** Every request of a chain sends the first conversation, extended. *)
Lemma chain_extends messages new :
  chain messages new ->
  Forall (fun x => exists more, req_messages (ex_request x) = messages ++ more) new.
Proof.
  revert messages. induction new as [|x new IH]; intros messages; [by constructor|].
  intros [Hx Hrest]. constructor.
  - exists []. by rewrite app_nil_r.
  - destruct Hrest as [->|(rs & _ & Hchain)]; [by constructor|].
    apply IH in Hchain. eapply Forall_impl; [exact Hchain|].
    intros y [more Hy]. eexists. by rewrite Hy, <- app_assoc.
Qed.

(** [C2] The tools offered to a delegated engine are bash, read, write and
    edit: neither the delegation tool "task" nor a task-tracking tool is
    among them, and every request of a delegated run offers exactly this
    set. Inside a delegated run an invocation of "task" (or of a
    task-tracking tool) is answered by the text "Unknown tool: task" (or
    the like) and changes nothing; and a delegated run, however it ends,
    leaves the task list as it was and the registry one record longer,
    its own: it has spawned no subagent. *)
Theorem delegated_engine_cannot_delegate :
  name <$> subagent_tools = [py "bash"; py "read"; py "write"; py "edit"]
  /\ (forall t, t ∈ subagent_tools ->
        name t ∉ [py "task"; py "todo_add"; py "todo_update"; py "todo_list"])
  /\ (forall description w,
        let w' := world_of (run_subagent description w) in
        exists new,
          exchanges w' = exchanges w ++ new
          /\ Forall (fun x => req_tools (ex_request x) = subagent_tools) new
          /\ length (subagents w') = S (length (subagents w))
          /\ todos w' = todos w)
  /\ (forall id input assistant_content tool_results w,
        subagent_blocks [ToolUseBlock id (py "task") input]
          assistant_content tool_results w
        = Ok (assistant_content ++ [ToolUseBlock id (py "task") input],
              tool_results ++ [ToolResult id (py "Unknown tool: task")]) w)
  /\ (forall tool_name input w,
        tool_name ∈ [py "task"; py "todo_add"; py "todo_update"; py "todo_list"] ->
        execute_delegated tool_name input w
        = Ok (py "Unknown tool: " ++ tool_name) w).
Proof.
  split_and!.
  - by vm_compute.
  - intros t Ht. unfold subagent_tools in Ht. by apply list_elem_of_filter in Ht as [? _].
  - intros description w w'. subst w'.
    destruct (run_subagent_run description w) as (-> & new & Hrun & _).
    destruct Hrun as [Hex _ _ _ Hreq _ Htodos Hlen _ _ _].
    exists new. split_and!; try done.
    + eapply Forall_impl; [exact Hreq|]. by intros x [sent ->].
    + rewrite Hlen. simpl. rewrite length_app. simpl. lia.
  - intros id input a r w. rewrite subagent_blocks_each.
    cbn [tool_uses omap list_omap execute_each]. unfold bind.
    rewrite execute_delegated_eq, execute_basic_unhandled by decide_names.
    done.
  - intros tool_name input w Hin.
    rewrite execute_delegated_eq, execute_basic_unhandled; [done|].
    intros Hb. revert Hin.
    repeat (apply elem_of_cons in Hb as [->|Hb]; [by decide_names|]).
    by apply elem_of_nil in Hb.
Qed.

(** [C6] A delegation request runs [run_subagent] on the description alone.
    The first request of the spawned engine carries one message, the user
    message whose content is the description; each later request carries
    what the request before it carried, extended by the response to that
    request and by the results of its tools, so that every conversation
    sent starts with the description and holds, after it, only messages
    of this run. The state at the time of the spawn, which holds every
    exchange of the parent, has no part in it. *)
Theorem subagent_starts_from_description (description : pystr) (w : world) :
  let w' := world_of (run_subagent description w) in
  let seed := Message (py "user") (Text description) in
  (forall input, in_description input = Some description ->
     execute (py "task") input w = run_subagent description w)
  /\ exists first rest,
      exchanges w' = exchanges w ++ first :: rest
      /\ ex_request first
         = Request (py "claude-sonnet-4-20250514") 4096 SUBAGENT_SYSTEM subagent_tools
             [seed]
      /\ chain [seed] (first :: rest)
      /\ Forall (fun x => exists more, req_messages (ex_request x) = seed :: more)
                (first :: rest).
Proof.
  intros w' seed. subst w' seed. split.
  - intros input Hd. unfold execute, bind at 1.
    rewrite execute_basic_unhandled by decide_names.
    dispatch. rewrite Hd. done.
  - destruct (run_subagent_run description w) as (-> & new & Hrun & _).
    destruct Hrun as [Hex _ Hfirst _ Hreq Hchain _ _ _ _ _].
    destruct new as [|first rest]; [by destruct Hfirst; [unfold max_turns; lia|]|].
    exists first, rest. split_and!; try done.
    + apply Forall_cons_1 in Hreq as [[sent Hs] _].
      apply chain_head in Hchain. rewrite Hs in Hchain. simpl in Hchain.
      by rewrite Hs, Hchain.
    + by apply (chain_extends [user_text description]).
Qed.
End Delegation.

(** * The turns of the two loops *)

Lemma filter_id_absent (id : pystr) (results : list tool_result) :
  id ∉ (tool_use_id <$> results) ->
  filter (fun r => tool_use_id r = id) results = [].
Proof.
  induction results as [|r results IH]; [done|].
  intros Hn. rewrite fmap_cons, not_elem_of_cons in Hn. destruct Hn as [Hr Hn].
  rewrite filter_cons_False by done. by apply IH.
Qed.

Lemma filter_id_once (id : pystr) (results : list tool_result) :
  NoDup (tool_use_id <$> results) ->
  id ∈ (tool_use_id <$> results) ->
  length (filter (fun r => tool_use_id r = id) results) = 1%nat.
Proof.
  induction results as [|r results IH]; [by intros _ ?%elem_of_nil|].
  rewrite fmap_cons. intros [Hr Hnd]%NoDup_cons Hin.
  destruct (decide (tool_use_id r = id)) as [<-|Hne].
  - rewrite filter_cons_True by done. simpl. by rewrite filter_id_absent.
  - rewrite filter_cons_False by done. apply IH; [done|].
    apply elem_of_cons in Hin as [?|?]; [congruence|done].
Qed.

Lemma answers_of_ids (blocks : list block) (results : list tool_result) :
  tool_use_id <$> results = tool_use_ids blocks -> answers blocks results.
Proof.
  intros Hids. split_and!; [done| |by intros id; rewrite Hids|].
  - intros i id Hi. rewrite <- Hids, list_lookup_fmap in Hi.
    destruct (results !! i) as [r|]; [|done]. injection Hi as <-. by exists r.
  - intros Hnd id Hin. apply filter_id_once; by rewrite Hids.
Qed.

Section Turns.
Context {E : Env}.

Lemma succeeds_run_subagent description :
  conforming E -> succeeds (run_subagent description).
Proof.
  intros Hc w. rewrite run_subagent_unfold.
  destruct (succeeds_subagent_loop (length (subagents w)) (seq 0 max_turns)
              [user_text description] Hc
              (with_subagents w
                 (subagents w ++ [Subagent description (py "running") 0])))
    as (r & w' & ->).
  by eexists _, _.
Qed.

(** Under a conforming service, [execute] returns on every invocation that
    carries its required keys. *)
Lemma succeeds_execute id tool_name input :
  conforming E ->
  block_conforms (ToolUseBlock id tool_name input) = true ->
  succeeds (execute tool_name input).
Proof.
  intros Hc Hb w. unfold execute, bind at 1.
  destruct (succeeds_execute_basic id tool_name input Hb w) as ([r|] & w1 & ->);
    [by eexists _, _|].
  destruct input as [command path text old new task index status description].
  repeat case_bool_decide; subst; try (by eexists _, _); vm_compute in Hb.
  - destruct task; [|done]. by eexists _, _.
  - destruct index; [|done]. destruct status; [|done].
    unfold getitem, bind, ret, get_todos, set_todos. cbn [in_index in_status].
    case_match; by eexists _, _.
  - unfold bind, get_todos. destruct (todos w1); by eexists _, _.
  - destruct description as [d|]; [|done]. apply (succeeds_run_subagent d Hc).
Qed.

Lemma succeeds_execute_each blocks :
  conforming E ->
  forallb block_conforms blocks = true ->
  succeeds (execute_each execute (tool_uses blocks)).
Proof.
  intros Hc. induction blocks as [|b blocks IH]; simpl; [intros _; apply succeeds_ret|].
  intros [Hb Hbs]%andb_true_iff. specialize (IH Hbs).
  destruct b as [t|id n i]; [exact IH|].
  change (tool_uses (ToolUseBlock id n i :: blocks))
    with ((id, n, i) :: tool_uses blocks).
  intros w. cbn [execute_each]. unfold bind.
  destruct (succeeds_execute id n i Hc Hb w) as (r & w1 & ->).
  destruct (IH w1) as (rs & w2 & ->). by eexists _, _.
Qed.

(** One turn of the primary loop, step by step. *)
Lemma agent_turn_unfold messages w :
  agent_turn messages w =
    let req := request_of SYSTEM_PROMPT main_tools messages in
    let resp := messages_create (exchanges w) req in
    let w1 := World (fs w) (todos w) (subagents w)
                (exchanges w ++ [Exchange req resp]) in
    match execute_each execute (tool_uses (content resp)) w1 with
    | Ok rs w2 =>
        if bool_decide (stop_reason resp ≠ py "tool_use") then
          Ok (Return (final_text (content resp))
                (messages ++ [assistant_message (content resp)])) w2
        else
          Ok (Continue (messages ++ [assistant_message (content resp); user_results rs]))
             w2
    | Raise e w2 => Raise e w2
    end.
Proof.
  unfold agent_turn, create, bind, ret.
  simpl. rewrite agent_blocks_each. unfold bind, ret. simpl.
  destruct (execute_each _ _ _) as [rs w2|e w2]; [|done].
  case_bool_decide; [done|]. by rewrite <- app_assoc.
Qed.

(** [C1] A turn whose response asks for tools, once its tools have run,
    appends the response as the assistant message and, immediately after
    it, one user message of tool results that answer the invocations of
    that message: the same identifiers in the order of the invocations,
    each identifier of a single invocation carried by exactly one result.
    This holds for the turns of the primary loop and for those of the
    delegated loop; and under a service whose tool invocations carry
    their required keys every turn gets there. *)
Theorem tool_results_answer_tool_uses
    (messages : list message) (w : world) (id turn : nat) :
  let primary :=
    messages_create (exchanges w) (request_of SYSTEM_PROMPT main_tools messages) in
  let delegated :=
    messages_create (exchanges w) (request_of SUBAGENT_SYSTEM subagent_tools messages) in
  (forall s w',
     agent_turn messages w = Ok s w' ->
     wants_tools primary ->
     exists results,
       s = Continue (messages ++ [Message (py "assistant") (Blocks (content primary));
                                  Message (py "user") (ToolResults results)])
       /\ answers (content primary) results)
  /\ (forall s w',
     subagent_turn id turn messages w = Ok s w' ->
     wants_tools delegated ->
     exists results,
       s = Continue (messages ++ [Message (py "assistant") (Blocks (content delegated));
                                  Message (py "user") (ToolResults results)])
       /\ answers (content delegated) results)
  /\ (conforming E ->
      (exists s w', agent_turn messages w = Ok s w')
      /\ (exists s w', subagent_turn id turn messages w = Ok s w')).
Proof.
  intros primary delegated. rewrite agent_turn_unfold, subagent_turn_unfold.
  cbv zeta. fold primary delegated. split_and!.
  - intros s w' Hturn Hw.
    destruct (execute_each execute _ _) as [rs w2|e w2] eqn:Hrun; [|done].
    rewrite bool_decide_eq_false_2 in Hturn by (by intros Hn; apply Hn).
    injection Hturn as <- <-. exists rs. split; [done|].
    apply answers_of_ids, (execute_each_ids _ _ _ _ _ Hrun).
  - intros s w' Hturn Hw.
    destruct (execute_each execute_delegated _ _) as [rs w2|e w2] eqn:Hrun; [|done].
    rewrite bool_decide_eq_false_2 in Hturn by (by intros Hn; apply Hn).
    injection Hturn as <- <-. exists rs. split; [done|].
    apply answers_of_ids, (execute_each_ids _ _ _ _ _ Hrun).
  - intros Hc. split.
    + destruct (succeeds_execute_each (content primary) Hc (Hc _ _)
                  (World (fs w) (todos w) (subagents w)
                     (exchanges w
                      ++ [Exchange (request_of SYSTEM_PROMPT main_tools messages)
                            primary])))
        as (rs & w2 & ->).
      case_bool_decide; by eexists _, _.
    + destruct (succeeds_execute_each_delegated (content delegated) (Hc _ _)
                  (World (fs w) (todos w)
                     (alter (set_sa_turns (Z.of_nat turn + 1)) id (subagents w))
                     (exchanges w
                      ++ [Exchange (request_of SUBAGENT_SYSTEM subagent_tools messages)
                            delegated])))
        as (rs & w2 & ->).
      case_bool_decide; by eexists _, _.
Qed.


End Turns.

Lemma tool_results_answer_tool_uses_witness :
  conforming relentless
  /\ exists results w',
      @agent_turn relentless [Message (py "user") (Text (py "tidy up"))] empty_world
      = Ok (Continue ([Message (py "user") (Text (py "tidy up"))]
                      ++ [Message (py "assistant")
                            (Blocks [ToolUseBlock (py "toolu_1") (py "bash")
                                       (bash_input (py "true"))]);
                          Message (py "user") (ToolResults results)])) w'
      /\ answers [ToolUseBlock (py "toolu_1") (py "bash") (bash_input (py "true"))]
           results.
Proof.
  split; [exact relentless_conforming|].
  destruct (@tool_results_answer_tool_uses relentless
              [Message (py "user") (Text (py "tidy up"))] empty_world 0%nat 0%nat)
    as (Hprimary & _ & Hreturns).
  destruct (Hreturns relentless_conforming) as [(s & w' & Hturn) _].
  destruct (Hprimary s w' Hturn eq_refl) as (results & -> & Hanswers).
  by exists results, w'.
Defined.


Section Agent.
Context {E : Env}.

Lemma agent_loop_succ fuel messages w :
  agent_loop (S fuel) messages w =
    match agent_turn messages w with
    | Ok (Continue messages') w' => agent_loop fuel messages' w'
    | Ok (Return text messages') w' => Ok (Some (text, messages')) w'
    | Raise e w' => Raise e w'
    end.
Proof.
  cbn [agent_loop]. unfold bind.
  by destruct (agent_turn messages w) as [[]|].
Qed.

(** Once the loop has returned within some number of iterations, allowing
    it more changes nothing: the bound stands for no bound at all. *)
Lemma agent_loop_more fuel extra messages w r w' :
  agent_loop fuel messages w = Ok (Some r) w' ->
  agent_loop (fuel + extra) messages w = Ok (Some r) w'.
Proof.
  revert messages w. induction fuel as [|fuel IH]; intros messages w; [done|].
  cbn [Nat.add]. rewrite !agent_loop_succ.
  destruct (agent_turn messages w) as [[messages'|text messages'] w1|e w1]; [|done..].
  apply IH.
Qed.
End Agent.

(** * More on the dispatch *)

Lemma returns_some_try_except {A} (body : M (option A)) (handler : exn -> M (option A)) :
  returns_some body -> (forall e, returns_some (handler e)) ->
  returns_some (try_except body handler).
Proof.
  intros Hb Hh w w'. unfold try_except.
  destruct (body w) as [a w1|e w1] eqn:Hw; [|apply Hh].
  intros [= -> ->]. by apply (Hb w w').
Qed.

Lemma returns_some_bind {A B} (m : M A) (k : A -> M (option B)) :
  (forall a, returns_some (k a)) -> returns_some (bind m k).
Proof.
  intros Hk w w'. unfold bind. destruct (m w) as [a w1|e w1]; [apply Hk|done].
Qed.

Lemma returns_some_ret {A} (a : A) : returns_some (ret (Some a)).
Proof. by intros w w'. Qed.

Section MoreDispatch.
Context {E : Env}.

(** A shared handler never answers [None] for one of its four names. *)
Lemma returns_some_execute_basic tool_name input :
  tool_name ∈ [py "bash"; py "read"; py "write"; py "edit"] ->
  returns_some (execute_basic tool_name input).
Proof.
  intros Hin. unfold execute_basic.
  repeat case_bool_decide;
    [..|exfalso; repeat (apply elem_of_cons in Hin as [->|Hin]; [done|]);
        by apply elem_of_nil in Hin];
    repeat first
      [ apply returns_some_ret
      | apply returns_some_bind; intros ?
      | apply returns_some_try_except; [|intros ?]
      | case_match ].
Qed.

(** [X6] The failures of the file system and of the shell never leave a
    shared handler: the only exception it lets out is the [KeyError] of a
    key that the input lacks, raised before anything is done; with the
    keys its schema requires the handler returns. *)
Theorem shared_handlers_turn_failures_into_text
    (tool_name : pystr) (input : tool_input) (w : world) :
  (forall e w',
     execute_basic tool_name input w = Raise e w' ->
     exists key, e = KeyError key /\ has_key input key = false /\ w' = w)
  /\ (forall id,
        block_conforms (ToolUseBlock id tool_name input) = true ->
        exists r w', execute_basic tool_name input w = Ok r w').
Proof.
  split; [|intros id Hc; by apply (succeeds_execute_basic id)].
  intros e w'. unfold execute_basic.
  destruct input as [command path text old new task index status description].
  repeat case_bool_decide; cbn [in_command in_path in_content in_old_string in_new_string];
    try done.
  - intros Hr. exfalso. revert Hr. apply try_except_raises.
    intros []; apply succeeds_ret.
  - destruct path; cbn [getitem].
    + intros Hr. exfalso. revert Hr. apply try_except_raises.
      intros []; apply succeeds_ret.
    + intros [= <- <-]. by exists (py "path").
  - destruct path; cbn [getitem]; [|intros [= <- <-]; by exists (py "path")].
    destruct text; cbn [getitem]; [|intros [= <- <-]; by exists (py "content")].
    intros Hr. exfalso. revert Hr. apply try_except_raises.
    intros []; apply succeeds_ret.
  - destruct path; cbn [getitem]; [|intros [= <- <-]; by exists (py "path")].
    destruct old; cbn [getitem]; [|intros [= <- <-]; by exists (py "old_string")].
    destruct new; cbn [getitem]; [|intros [= <- <-]; by exists (py "new_string")].
    intros Hr. exfalso. revert Hr. apply try_except_raises.
    intros []; apply succeeds_ret.
Qed.

(** [X7] A shared handler works on the file system alone: whatever the
    tool, the input and the outcome, the task list, the registry of
    subagents and the exchanges with the service are left as they were. *)
Theorem shared_handlers_touch_only_files
    (tool_name : pystr) (input : tool_input) (w : world) :
  let w' := world_of (execute_basic tool_name input w) in
  todos w' = todos w /\ subagents w' = subagents w /\ exchanges w' = exchanges w.
Proof.
  intros w'. subst w'.
  destruct (fs_only_execute_basic tool_name input w) as [f ->]. done.
Qed.

(** [X8] The four shared tools behave the same for both engines: on
    bash, read, write and edit the primary agent's [execute] gives the
    result, the state and the exceptions that a delegated engine gets. *)
Theorem shared_tools_same_for_both_engines
    (tool_name : pystr) (input : tool_input) (w : world) :
  tool_name ∈ [py "bash"; py "read"; py "write"; py "edit"] ->
  execute tool_name input w = execute_delegated tool_name input w.
Proof.
  intros Hin. rewrite execute_delegated_eq. unfold execute, bind.
  pose proof (returns_some_execute_basic tool_name input Hin w) as Hsome.
  destruct (execute_basic tool_name input w) as [[r|] w1|e w1]; [done| |done].
  by destruct (Hsome w1).
Qed.

(** [X9] A name that is none of the eight tools is answered by the
    primary agent with the text "Unknown tool: " and the name, and
    nothing changes. *)
Theorem unknown_tool_is_reported
    (tool_name : pystr) (input : tool_input) (w : world) :
  tool_name ∉ name <$> main_tools ->
  execute tool_name input w = Ok (py "Unknown tool: " ++ tool_name) w.
Proof.
  intros Hn.
  assert (Hnames : name <$> main_tools
                   = [py "bash"; py "read"; py "write"; py "edit"; py "todo_add";
                      py "todo_update"; py "todo_list"; py "task"])
    by (vm_compute; reflexivity).
  rewrite Hnames in Hn.
  unfold execute, bind. rewrite execute_basic_unhandled.
  - repeat case_bool_decide; subst; try done; exfalso; apply Hn; decide_names.
  - intros Hb. apply Hn.
    repeat (apply elem_of_cons in Hb as [->|Hb]; [decide_names|]).
    by apply elem_of_nil in Hb.
Qed.
End MoreDispatch.

Lemma shared_tools_same_for_both_engines_witness :
  py "read" ∈ [py "bash"; py "read"; py "write"; py "edit"]
  /\ @execute quiet (py "read") (read_input (py "notes.txt")) notes_world
     = @execute_delegated quiet (py "read") (read_input (py "notes.txt")) notes_world.
Proof.
  assert (Hin : py "read" ∈ [py "bash"; py "read"; py "write"; py "edit"])
    by decide_names.
  split; [exact Hin|].
  exact (@shared_tools_same_for_both_engines quiet (py "read")
           (read_input (py "notes.txt")) notes_world Hin).
Defined.

Lemma unknown_tool_is_reported_witness :
  (py "deploy" ∉ name <$> main_tools)
  /\ @execute quiet (py "deploy") no_input empty_world
     = Ok (py "Unknown tool: deploy") empty_world.
Proof.
  assert (Hn : py "deploy" ∉ name <$> main_tools) by decide_names.
  split; [exact Hn|].
  exact (@unknown_tool_is_reported quiet (py "deploy") no_input empty_world Hn).
Defined.

(** * More on the two loops *)

Section MoreLoops.
Context {E : Env}.

(** [X13] A delegated run adds one record to the registry and touches no
    other: the records there were stay as they were, and the new one
    holds the task description. When the run returns the new record is
    marked "done" or "timeout", and the status line of [print_status]
    then shows one subagent more and as many running as before; when a
    handler raises the record is left "running" and the line shows one
    more running. *)
Theorem run_subagent_keeps_earlier_records (description : pystr) (w : world) :
  let o := run_subagent description w in
  let w' := world_of o in
  let running := length (filter (fun a => sa_status a = py "running") (subagents w)) in
  let line (r : nat) :=
    Some (py "  "
          ++ match todos w with
             | [] => []
             | _ :: _ =>
                 py "Todos: "
                 ++ str_int (Z.of_nat (length (filter (fun t => status t = py "done")
                                                 (todos w))))
                 ++ py "/" ++ str_int (len (todos w)) ++ py " | "
             end
          ++ py "Subagents: " ++ str_int (len (subagents w) + 1)
          ++ py " (" ++ str_int (Z.of_nat r) ++ py " running)") in
  exists rec,
    subagents w' = subagents w ++ [rec]
    /\ sa_task rec = description
    /\ match o with
       | Ok _ _ =>
           (sa_status rec = py "done" \/ sa_status rec = py "timeout")
           /\ print_status w' = line running
       | Raise _ _ =>
           sa_status rec = py "running"
           /\ print_status w' = line (S running)
       end.
Proof.
  intros o w' running line. subst o w'.
  destruct (run_subagent_run description w) as (-> & new & Hrun & Hend).
  rewrite run_subagent_unfold.
  set (w0 := with_subagents w _) in *.
  destruct Hrun as [_ _ _ _ _ _ Htodos Hlen Hoth Htask _].
  set (o := subagent_loop _ _ _ w0) in *. clearbody o.
  set (id := length (subagents w)) in *.
  assert (Hl0 : length (subagents w0) = S id)
    by (subst w0; simpl; rewrite length_app; simpl; lia).
  assert (Hid0 : subagents w0 !! id = Some (Subagent description (py "running") 0)).
  { subst w0. simpl. by rewrite lookup_app_r, Nat.sub_diag. }
  destruct (lookup_lt_is_Some_2 (subagents (world_of o)) id) as [rec Hrec];
    [rewrite Hlen; lia|].
  assert (Hlist : subagents (world_of o) = subagents w ++ [rec]).
  { apply list_eq. intros j. destruct (decide (j = id)) as [->|Hne].
    - by rewrite Hrec, lookup_app_r, Nat.sub_diag.
    - rewrite (Hoth j Hne). subst w0. simpl.
      destruct (decide (j < id)%nat).
      + by rewrite !lookup_app_l.
      + rewrite !lookup_ge_None_2; [done|..]; rewrite length_app; simpl; lia. }
  rewrite Hrec, Hid0 in Htask. simpl in Htask. injection Htask as Htask.
  assert (Hline : forall r,
            length (filter (fun a => sa_status a = py "running") (subagents w ++ [rec])) = r ->
            print_status (world_of o) = line r).
  { intros r Hr. unfold print_status, done_count, running_count, len.
    rewrite Htodos, Hlist, Hr. change (todos w0) with (todos w).
    subst line. cbv beta. rewrite length_app. cbn [length].
    replace (Z.of_nat (length (subagents w) + 1)) with (len (subagents w) + 1)
      by (unfold len; lia).
    destruct (subagents w ++ [rec]) as [|a l] eqn:El; [by destruct (subagents w)|].
    destruct (todos w) as [|t l']; cbn [app str_join]; [done|].
    by rewrite <- !app_assoc. }
  assert (Hcount : forall s, sa_status rec = s ->
            length (filter (fun a => sa_status a = py "running") (subagents w ++ [rec]))
            = (running + if bool_decide (s = py "running") then 1 else 0)%nat).
  { intros s <-. subst running. rewrite filter_app, length_app.
    rewrite filter_cons, filter_nil. case_bool_decide; case_decide; done. }
  exists rec.
  destruct o as [[text messages] w'|e w']; unfold delegated_end in Hend;
    cbn [world_of] in *; rewrite Hlist;
    (split; [done|]); (split; [done|]).
  - rewrite Hrec in Hend. cbn [fmap option_fmap option_map] in Hend.
    destruct Hend as [(? & ? & _ & _ & _ & [= Hs] & _)|(_ & _ & [= Hs] & _)].
    + split; [by left|]. apply Hline. rewrite (Hcount _ Hs).
      rewrite bool_decide_eq_false_2 by (intros Hn; by vm_compute in Hn). lia.
    + split; [by right|]. apply Hline. rewrite (Hcount _ Hs).
      rewrite bool_decide_eq_false_2 by (intros Hn; by vm_compute in Hn). lia.
  - destruct Hend as (_ & _ & Hs). rewrite Hrec, Hid0 in Hs.
    cbn [fmap option_fmap option_map sa_status] in Hs. injection Hs as Hs.
    split; [done|]. apply Hline. rewrite (Hcount _ Hs).
    rewrite bool_decide_eq_true_2 by done. lia.
Qed.
End MoreLoops.

(** * The conversations the loops build *)

Lemma exchanged_app turns turns' :
  exchanged (turns ++ turns') = exchanged turns ++ exchanged turns'.
Proof. unfold exchanged. apply flat_map_app. Qed.

Section Conversations.
Context {E : Env}.

(** The conversation of the delegated loop, from any start, told by the
    exchanges it has made. *)
Lemma subagent_loop_history id turn_numbers messages w text messages' w' :
  subagent_loop id turn_numbers messages w = Ok (text, messages') w' ->
  exists turns,
    Forall answered turns
    /\ ((exists last,
           exchanges w' = exchanges w ++ (fst <$> turns) ++ [last]
           /\ ¬ wants_tools (ex_response last)
           /\ req_messages (ex_request last) = messages ++ exchanged turns
           /\ messages' = messages ++ exchanged turns
                          ++ [Message (py "assistant") (Blocks (content (ex_response last)))]
           /\ text = joined_text (content (ex_response last)))
        \/ (exchanges w' = exchanges w ++ (fst <$> turns)
            /\ length turns = length turn_numbers
            /\ messages' = messages ++ exchanged turns
            /\ text = max_turns_notice)).
Proof.
  revert messages w. induction turn_numbers as [|turn rest IH]; intros messages w.
  - cbn [subagent_loop]. unfold bind, set_status, get_subagents, set_subagents, ret.
    intros [= <- <- <-]. exists []. split; [done|]. right.
    cbn [fmap list_fmap exchanged flat_map length]. by rewrite !app_nil_r.
  - rewrite subagent_loop_cons, subagent_turn_unfold. cbv zeta.
    set (req := request_of SUBAGENT_SYSTEM subagent_tools messages).
    set (resp := messages_create (exchanges w) req).
    set (w1 := World (fs w) (todos w) (alter _ id (subagents w)) (exchanges w ++ _)).
    destruct (fs_only_execute_each (tool_uses (content resp)) w1) as [f Hf].
    destruct (execute_each execute_delegated _ w1) as [rs w2|e w2] eqn:Hrun; [|done].
    cbn [world_of] in Hf. subst w2.
    case_bool_decide as Hstop.
    + intros [= <- <- <-]. exists []. split; [done|]. left.
      exists (Exchange req resp).
      cbn [fmap list_fmap exchanged flat_map app]. rewrite app_nil_r.
      split_and!; try done. apply final_text_joined.
    + intros Hloop. apply IH in Hloop as (turns & Hturns & Hend).
      assert (Hans : answered (Exchange req resp, rs)).
      { split; cbn [fst snd ex_response].
        - unfold wants_tools. by destruct (decide (stop_reason resp = py "tool_use")).
        - apply answers_of_ids, (execute_each_ids _ _ _ _ _ Hrun). }
      exists ((Exchange req resp, rs) :: turns). split; [by constructor|].
      change (exchanges (with_fs w1 f)) with (exchanges w ++ [Exchange req resp]) in Hend.
      change (exchanged ((Exchange req resp, rs) :: turns))
        with ([Message (py "assistant") (Blocks (content resp));
               Message (py "user") (ToolResults rs)] ++ exchanged turns).
      cbn [fmap list_fmap fst length].
      destruct Hend as [(last & Hex & Hlast & Hreq & -> & ->)|(Hex & Hlen & -> & ->)].
      * left. exists last. rewrite Hex, Hreq.
        split_and!; try done; by rewrite <- !app_assoc.
      * right. rewrite Hex, Hlen. split_and!; try done; by rewrite <- !app_assoc.
Qed.

(** [X15] When a delegated run returns, its conversation can be read off
    the calls it made to the service. It is the task description as the
    first user message; then, for every call whose response asked for
    tools, that response as an assistant message followed by one user
    message of tool results that answer its invocations; and then either
    the response of the last call, which did not ask for tools and whose
    texts, put end to end, are returned, that call having sent exactly
    the conversation before it; or nothing more after 20 such calls, the
    notice being returned. *)
Theorem subagent_conversation_is_paired
    (description text : pystr) (messages : list message) (w w' : world) :
  run_subagent_messages description w = Ok (text, messages) w' ->
  run_subagent description w = Ok text w'
  /\ exists turns,
      Forall answered turns
      /\ ((exists last,
             exchanges w' = exchanges w ++ (fst <$> turns) ++ [last]
             /\ ¬ wants_tools (ex_response last)
             /\ req_messages (ex_request last)
                = Message (py "user") (Text description) :: exchanged turns
             /\ messages
                = Message (py "user") (Text description) :: exchanged turns
                  ++ [Message (py "assistant") (Blocks (content (ex_response last)))]
             /\ text = joined_text (content (ex_response last)))
          \/ (exchanges w' = exchanges w ++ (fst <$> turns)
              /\ length turns = 20%nat
              /\ messages = Message (py "user") (Text description) :: exchanged turns
              /\ text = py "Subagent reached max turns (20). Partial work may be completed.")).
Proof.
  intros Hrun. split.
  - unfold run_subagent, bind. by rewrite Hrun.
  - change (subagent_loop (length (subagents w)) (seq 0 max_turns)
              [user_text description]
              (with_subagents w
                 (subagents w ++ [Subagent description (py "running") 0]))
            = Ok (text, messages) w') in Hrun.
    apply subagent_loop_history in Hrun as (turns & Hturns & Hend).
    exists turns. split; [done|].
    destruct Hend as [(last & Hex & Hlast & Hreq & -> & ->)|(Hex & Hlen & -> & ->)].
    + left. by exists last.
    + right. split_and!; [done|by rewrite Hlen, length_seq|done|by vm_compute].
Qed.
End Conversations.

Lemma subagent_conversation_is_paired_witness :
  exists text messages w',
    @run_subagent_messages relentless (py "tidy up") empty_world
    = Ok (text, messages) w'
    /\ @run_subagent relentless (py "tidy up") empty_world = Ok text w'.
Proof.
  destruct (@run_subagent_messages relentless (py "tidy up") empty_world)
    as [[text messages] w'|e w'] eqn:Hrun; [|by vm_compute in Hrun].
  exists text, messages, w'. split; [done|].
  exact (proj1 (@subagent_conversation_is_paired relentless
                  (py "tidy up") text messages empty_world w' Hrun)).
Defined.

(** * The conversation of the primary agent *)

Lemma system_prompts_differ : SUBAGENT_SYSTEM ≠ SYSTEM_PROMPT.
Proof. intros Heq. vm_compute in Heq. discriminate Heq. Qed.

Lemma filter_primary_delegated (more : list exchange) :
  Forall (fun x => req_system (ex_request x) = SUBAGENT_SYSTEM) more ->
  filter (fun x => req_system (ex_request x) = SYSTEM_PROMPT) more = [].
Proof.
  induction 1 as [|x more Hx _ IH]; [done|].
  rewrite filter_cons_False; [done|].
  rewrite Hx. apply system_prompts_differ.
Qed.

Section PrimaryConversation.
Context {E : Env}.

(** A tool of the primary agent leaves the exchanges made so far as they
    are; what it adds are the calls of a subagent. *)
Lemma execute_exchanges name input w :
  exists more,
    exchanges (world_of (execute name input w)) = exchanges w ++ more
    /\ Forall (fun x => req_system (ex_request x) = SUBAGENT_SYSTEM) more.
Proof.
  assert (Hsame : forall w1, exchanges w1 = exchanges w ->
            exists more, exchanges w1 = exchanges w ++ more
              /\ Forall (fun x => req_system (ex_request x) = SUBAGENT_SYSTEM) more).
  { intros w1 ->. exists []. by rewrite app_nil_r. }
  unfold execute, bind at 1.
  destruct (fs_only_execute_basic name input w) as [f Hf].
  destruct (execute_basic name input w) as [[r|] w1|e w1];
    cbn [world_of] in Hf; subst w1; [by apply Hsame|..|by apply Hsame].
  repeat case_bool_decide.
  - destruct (in_task input); by apply Hsame.
  - destruct (in_index input); [|by apply Hsame].
    destruct (in_status input); [|by apply Hsame].
    unfold getitem, bind, ret, get_todos, set_todos. by case_match; apply Hsame.
  - unfold bind, get_todos. by case_match; apply Hsame.
  - destruct (in_description input) as [description|]; [|by apply Hsame].
    unfold getitem, bind at 1, ret at 1.
    destruct (run_subagent_run description (with_fs w f)) as (-> & new & Hrun & _).
    destruct Hrun as [Hex _ _ _ Hreq _ _ _ _ _ _].
    exists new. split; [exact Hex|].
    eapply Forall_impl; [exact Hreq|]. by intros x [sent ->].
  - by apply Hsame.
Qed.

Lemma execute_each_exchanges calls w :
  exists more,
    exchanges (world_of (execute_each execute calls w)) = exchanges w ++ more
    /\ Forall (fun x => req_system (ex_request x) = SUBAGENT_SYSTEM) more.
Proof.
  revert w. induction calls as [|[[id n] i] calls IH]; intros w.
  - exists []. by rewrite app_nil_r.
  - cbn [execute_each]. unfold bind at 1.
    destruct (execute_exchanges n i w) as (more1 & Hex1 & Hall1).
    destruct (execute n i w) as [r w1|e w1]; cbn [world_of] in Hex1; [|by exists more1].
    unfold bind, ret. destruct (IH w1) as (more2 & Hex2 & Hall2).
    exists (more1 ++ more2).
    destruct (execute_each execute calls w1) as [rs w2|e w2]; cbn [world_of] in *;
      rewrite Hex2, Hex1, <- app_assoc; (split; [done|by apply Forall_app]).
Qed.

(** The conversation of the primary loop, from any start, told by the
    exchanges it has made. *)
Lemma agent_loop_history fuel messages w text messages' w' :
  agent_loop fuel messages w = Ok (Some (text, messages')) w' ->
  exists turns last new,
    exchanges w' = exchanges w ++ new
    /\ filter (fun x => req_system (ex_request x) = SYSTEM_PROMPT) new
       = (fst <$> turns) ++ [last]
    /\ Forall answered turns
    /\ ¬ wants_tools (ex_response last)
    /\ req_messages (ex_request last) = messages ++ exchanged turns
    /\ messages' = messages ++ exchanged turns
                   ++ [Message (py "assistant") (Blocks (content (ex_response last)))]
    /\ text = joined_text (content (ex_response last)).
Proof.
  revert messages w. induction fuel as [|fuel IH]; intros messages w; [done|].
  rewrite agent_loop_succ, agent_turn_unfold. cbv zeta.
  set (req := request_of SYSTEM_PROMPT main_tools messages).
  set (resp := messages_create (exchanges w) req).
  set (w1 := World (fs w) (todos w) (subagents w) (exchanges w ++ _)).
  destruct (execute_each_exchanges (tool_uses (content resp)) w1) as (more & Hex & Hmore).
  destruct (execute_each execute _ w1) as [rs w2|e w2] eqn:Hrun; [|done].
  cbn [world_of] in Hex.
  change (exchanges w1) with (exchanges w ++ [Exchange req resp]) in Hex.
  assert (Hfilter : forall rest,
            filter (fun x => req_system (ex_request x) = SYSTEM_PROMPT)
                   ([Exchange req resp] ++ more ++ rest)
            = Exchange req resp
              :: filter (fun x => req_system (ex_request x) = SYSTEM_PROMPT) rest).
  { intros rest. rewrite !filter_app, (filter_primary_delegated more Hmore).
    by rewrite filter_cons_True by done. }
  case_bool_decide as Hstop.
  - intros [= <- <- <-]. exists [], (Exchange req resp), ([Exchange req resp] ++ more).
    cbn [fmap list_fmap exchanged flat_map app]. rewrite app_nil_r.
    split_and!; try done.
    + by rewrite Hex, <- app_assoc.
    + specialize (Hfilter []). by rewrite app_nil_r in Hfilter.
    + apply final_text_joined.
  - intros Hloop.
    apply IH in Hloop as (turns & last & new & Hex' & Hfil & Hturns & Hlast & Hreq & -> & ->).
    assert (Hans : answered (Exchange req resp, rs)).
    { split; cbn [fst snd ex_response].
      - unfold wants_tools. by destruct (decide (stop_reason resp = py "tool_use")).
      - apply answers_of_ids, (execute_each_ids _ _ _ _ _ Hrun). }
    exists ((Exchange req resp, rs) :: turns), last, ([Exchange req resp] ++ more ++ new).
    change (exchanged ((Exchange req resp, rs) :: turns))
      with ([Message (py "assistant") (Blocks (content resp));
             Message (py "user") (ToolResults rs)] ++ exchanged turns).
    split_and!; try done.
    + by rewrite Hex', Hex, <- !app_assoc.
    + by rewrite Hfilter, Hfil.
    + by constructor.
    + by rewrite Hreq, <- !app_assoc.
    + by rewrite <- !app_assoc.
Qed.

(** [X14] When the primary agent returns, its conversation can be read
    off the calls it made to the service under its own system prompt
    (the calls of its subagents are made under another). It is the task
    as the first user message; then, for every such call but the last,
    whose response asked for tools, that response as an assistant
    message followed by one user message of tool results that answer
    its invocations; and then the response of the last call, which did
    not ask for tools, which was sent exactly the conversation before
    it, and whose texts, put end to end, are the value returned. *)
Theorem agent_conversation_is_paired
    (fuel : nat) (task text : pystr) (messages : list message) (w w' : world) :
  agent_loop fuel [Message (py "user") (Text task)] w = Ok (Some (text, messages)) w' ->
  agent fuel task w = Ok (Some text) w'
  /\ exists turns last new,
      exchanges w' = exchanges w ++ new
      /\ filter (fun x => req_system (ex_request x) = SYSTEM_PROMPT) new
         = (fst <$> turns) ++ [last]
      /\ Forall answered turns
      /\ ¬ wants_tools (ex_response last)
      /\ req_messages (ex_request last)
         = Message (py "user") (Text task) :: exchanged turns
      /\ messages
         = Message (py "user") (Text task) :: exchanged turns
           ++ [Message (py "assistant") (Blocks (content (ex_response last)))]
      /\ text = joined_text (content (ex_response last)).
Proof.
  intros Hloop. split.
  - unfold agent, bind.
    change (agent_loop fuel [user_text task] w = Ok (Some (text, messages)) w') in Hloop.
    by rewrite Hloop.
  - apply agent_loop_history in Hloop
      as (turns & last & new & Hex & Hfil & Hturns & Hlast & Hreq & -> & ->).
    by exists turns, last, new.
Qed.
End PrimaryConversation.

Lemma agent_conversation_is_paired_witness :
  exists text messages w',
    @agent_loop delegating 10 [Message (py "user") (Text (py "what is in notes.txt?"))]
      notes_world
    = Ok (Some (text, messages)) w'
    /\ @agent delegating 10 (py "what is in notes.txt?") notes_world
       = Ok (Some text) w'.
Proof.
  destruct (@agent_loop delegating 10
              [Message (py "user") (Text (py "what is in notes.txt?"))]
              notes_world) as [[[text messages]|] w'|e w'] eqn:Hloop;
    [|by vm_compute in Hloop..].
  exists text, messages, w'. split; [done|].
  exact (proj1 (@agent_conversation_is_paired delegating 10
                  (py "what is in notes.txt?") text messages notes_world w' Hloop)).
Defined.

(** * The console echo *)


(** * Example runs *)

(** The task tracker, as in the example of the specification. *)
Example task_tracker_session :
  result_of
    ((r1 <- @execute quiet (py "todo_add") (todo_add_input (py "write tests")) ;;
      r2 <- @execute quiet (py "todo_update") (todo_update_input 0 (py "in_progress")) ;;
      r3 <- @execute quiet (py "todo_list") no_input ;;
      r4 <- @execute quiet (py "todo_update") (todo_update_input 5 (py "done")) ;;
      ret [r1; r2; r3; r4]) empty_world)
  = Some [py "Added task 0: write tests";
          py "Updated task 0 to in_progress";
          py "0. [~] write tests";
          py "Error: Invalid index 5. Valid range: 0-0"].
Proof. vm_compute. reflexivity. Qed.

Example todo_list_empty :
  result_of (@execute quiet (py "todo_list") no_input empty_world)
  = Some (py "No tasks yet.").
Proof. vm_compute. reflexivity. Qed.

(** Standard output comes before standard error; a missing file and a
    missing key. *)
Example bash_both_streams :
  result_of (@execute_basic quiet (py "bash")
               (bash_input (py "echo hi; echo oops >&2")) empty_world)
  = Some (Some (py "hi" ++ newline ++ py "oops" ++ newline)).
Proof. vm_compute. reflexivity. Qed.

Example read_missing_file :
  result_of (@execute_basic quiet (py "read") (read_input (py "absent.txt")) empty_world)
  = Some (Some (py "Error: File not found: absent.txt")).
Proof. vm_compute. reflexivity. Qed.

Example read_without_path :
  @execute_basic quiet (py "read") no_input empty_world
  = Raise (KeyError (py "path")) empty_world.
Proof. vm_compute. reflexivity. Qed.

(** [str.count] does not see overlapping occurrences. *)
Example count_does_not_overlap :
  str_count (py "aa") (py "aaa") = 1%nat
  /\ str_replace (py "aa") (py "b") (py "aaa") = py "ba".
Proof. vm_compute. done. Qed.

(** A whole session with one delegation: four calls of the service, the
    second and third by the subagent, whose record ends "done" after two
    turns. *)
Example delegating_session :
  let o := @agent delegating 10 (py "what is in notes.txt?") notes_world in
  result_of o = Some (Some (py "All done."))
  /\ subagents (world_of o) = [Subagent (py "summarise notes.txt") (py "done") 2]
  /\ (req_messages ∘ ex_request <$> exchanges (world_of o)) !! 1%nat
     = Some [user_text (py "summarise notes.txt")]
  /\ (req_messages ∘ ex_request <$> exchanges (world_of o)) !! 3%nat
     = Some [user_text (py "what is in notes.txt?");
             assistant_message
               [TextBlock (py "Let me delegate. ");
                ToolUseBlock (py "toolu_a") (py "task")
                  (task_input (py "summarise notes.txt"))];
             user_results [ToolResult (py "toolu_a") (py "It says hello world.")]].
Proof. vm_compute. done. Qed.
